(** * LiteHyperBus: command encoding and transaction sequencers

    A shallow embedding of the two HyperRAM controllers of LiteHyperBus,
    [litehyperbus/core/hyperbus.py] (class [HyperRAM], a fixed timeline
    replayed once per access) and [litehyperbus/core/hyperram_ddrx2.py]
    (class [HyperRAMX2], a finite state machine with bursts and a read
    timeout).

    Both are Migen hardware descriptions.  An n-bit [Signal] is a [Z] in
    [0, 2^n); a slice [x[lo:hi]] and an assignment to a slice are written
    with [Z.shiftr], [Z.shiftl], [Z.land], [Z.ldiff] and [Z.lor].  The
    combinatorial statements ([self.comb]) are functions of the registers
    and the inputs of the current tick; the synchronous ones ([self.sync],
    [NextValue], [NextState]) make up a [step] function from the registers
    of one tick to those of the next: every right-hand side reads the
    current registers, and of two assignments to a register the one that
    comes later in the description wins. *)

From Stdlib Require Import ZArith Bool List Lia.
Import ListNotations.

Local Open Scope Z_scope.

(** ** Signals and slices *)

Module Sig.

(** [x[lo:hi]], Python's half-open slice of a signal: bits lo .. hi-1. *)
Definition slice (x lo hi : Z) : Z :=
  Z.land (Z.shiftr x lo) (Z.ones (hi - lo)).

(** [x[lo:hi].eq(v)]: bits lo .. hi-1 of x are replaced by the low bits of
    v (a wider v is truncated, a narrower one is extended with zeros); the
    other bits of x keep their value. *)
Definition set_slice (x lo hi v : Z) : Z :=
  Z.lor (Z.ldiff x (Z.shiftl (Z.ones (hi - lo)) lo))
        (Z.shiftl (Z.land v (Z.ones (hi - lo))) lo).

(** [x[i].eq(b)] for a single bit. *)
Definition set_bit (x i : Z) (b : bool) : Z :=
  set_slice x i (i + 1) (Z.b2z b).

(** [Cat(lo_part, hi_part)] where [lo_part] is [w] bits wide. *)
Definition cat (w lo_part hi_part : Z) : Z :=
  Z.lor (Z.land lo_part (Z.ones w)) (Z.shiftl hi_part w).

(** A value stored in an n-bit register. *)
Definition trunc (n x : Z) : Z := Z.land x (Z.ones n).

End Sig.

(** ** Command encoder of [HyperRAM] (hyperbus.py, "Command generation") *)

Module CommandA.
Import Sig.

(** [wishbone.Interface()] is built with its default address width. *)
Definition adr_width : Z := 30.

(** The bus width accepted by the constructor: [dw in [8, 16]]. *)
Inductive width := W8 | W16.

Definition dw_of (w : width) : Z := match w with W8 => 8 | W16 => 16 end.

(** The combinatorial assignments to [ca], in the order of the source, on a
    signal whose undriven bits are 0. *)
Definition ca (w : width) (we : bool) (adr : Z) : Z :=
  let c := 0 in
  let c := set_bit c 47 (negb we) in
  let c := set_bit c 45 true in
  match w with
  | W8 =>
      let c := set_slice c 16 45 (slice adr 2 adr_width) in
      let c := set_slice c 1 3 (slice adr 0 adr_width) in
      set_bit c 0 false
  | W16 =>
      let c := set_slice c 16 45 (slice adr 3 adr_width) in
      let c := set_slice c 1 3 (slice adr 1 adr_width) in
      set_bit c 0 (Z.testbit (slice adr 0 adr_width) 0)
  end.

(** Reading an address back from the fields of a command word. *)
Definition decode16 (c : Z) : Z :=
  Z.lor (slice c 0 1)
        (Z.lor (Z.shiftl (slice c 1 3) 1) (Z.shiftl (slice c 16 45) 3)).

Definition decode8 (c : Z) : Z :=
  Z.lor (slice c 1 3) (Z.shiftl (slice c 16 45) 2).

End CommandA.

(** ** Command encoder of [HyperRAMX2] (hyperram_ddrx2.py) *)

Module CommandB.
Import Sig.

(** [wishbone.Interface(adr_width=22)]. *)
Definition adr_width : Z := 22.

Definition ca (we : bool) (adr : Z) : Z :=
  let c := 0 in
  let c := set_bit c 47 (negb we) in
  let c := set_bit c 45 true in
  let c := set_slice c 16 35 (slice adr 2 21) in
  let c := set_slice c 1 3 (slice adr 0 2) in
  set_bit c 0 false.

End CommandB.

(** ** The fixed-timeline controller [HyperRAM] (hyperbus.py) *)

Module HyperRAM.
Import Sig CommandA.

(** *** Construction *)

(** What [__init__] reads of [pads]: a data pad is either a plain signal of
    some length or a tristate record with fields [o], [oe], [i] (then
    [hasattr(pads.dq, "oe")] holds and the width is [len(pads.dq.o)]). *)
Inductive Pad :=
| PlainPad (len : Z)
| TristatePad (o_len : Z).

Record Pads := {
  pads_dq : Pad;
  pads_rwds : Pad;
  pads_cs_n_len : Z;
  pads_has_rst_n : bool;
  pads_has_clk : bool
}.

Inductive BuildError := AssertionError | IndexError.

(** The parameters a successfully built controller is left with. *)
Record Config := {
  cfg_width : width;
  cfg_latency : Z;
  cfg_drives_second_cs : bool
}.

Definition pad_width (p : Pad) : Z :=
  match p with PlainPad n => n | TristatePad n => n end.

(** [__init__] up to the end of the pad wiring: [assert dw in [8, 16]],
    then [pads.cs_n[0]] (an index past the end of a signal raises), then
    [assert len(pads.cs_n) <= 2].  What follows in [__init__] only adds
    statements to the module and raises nothing. *)
Definition init (pads : Pads) (latency : Z) : BuildError + Config :=
  let dw := pad_width (pads_dq pads) in
  match (if dw =? 8 then Some W8 else if dw =? 16 then Some W16 else None) with
  | None => inl AssertionError
  | Some w =>
      if pads_cs_n_len pads <=? 0 then inl IndexError
      else if negb (pads_cs_n_len pads <=? 2) then inl AssertionError
      else inr {| cfg_width := w;
                  cfg_latency := latency;
                  cfg_drives_second_cs := (pads_cs_n_len pads =? 2) |}
  end.

(** *** Registers and inputs *)

(** The host bus and the sampled data lines, as seen in one tick. *)
Record Inputs := {
  cyc : bool;
  stb : bool;
  we : bool;
  adr : Z;
  dat_w : Z;
  sel : Z;
  dq_i : Z
}.

(** Every signal driven from [self.sync]; all of them reset to 0. *)
Record Regs := {
  clk_phase : Z;
  clk : bool;
  cs : bool;
  ca_active : bool;
  sr : Z;
  dqi : Z;
  dq_oe : bool;
  rwds_oe : bool;
  rwdso : Z;
  ack : bool;
  counter : Z
}.

Definition reset : Regs :=
  {| clk_phase := 0; clk := false; cs := false; ca_active := false;
     sr := 0; dqi := 0; dq_oe := false; rwds_oe := false; rwdso := 0;
     ack := false; counter := 0 |}.

Definition with_clk_phase v r :=
  {| clk_phase := v; clk := clk r; cs := cs r; ca_active := ca_active r;
     sr := sr r; dqi := dqi r; dq_oe := dq_oe r; rwds_oe := rwds_oe r;
     rwdso := rwdso r; ack := ack r; counter := counter r |}.
Definition with_clk v r :=
  {| clk_phase := clk_phase r; clk := v; cs := cs r; ca_active := ca_active r;
     sr := sr r; dqi := dqi r; dq_oe := dq_oe r; rwds_oe := rwds_oe r;
     rwdso := rwdso r; ack := ack r; counter := counter r |}.
Definition with_cs v r :=
  {| clk_phase := clk_phase r; clk := clk r; cs := v; ca_active := ca_active r;
     sr := sr r; dqi := dqi r; dq_oe := dq_oe r; rwds_oe := rwds_oe r;
     rwdso := rwdso r; ack := ack r; counter := counter r |}.
Definition with_ca_active v r :=
  {| clk_phase := clk_phase r; clk := clk r; cs := cs r; ca_active := v;
     sr := sr r; dqi := dqi r; dq_oe := dq_oe r; rwds_oe := rwds_oe r;
     rwdso := rwdso r; ack := ack r; counter := counter r |}.
Definition with_sr v r :=
  {| clk_phase := clk_phase r; clk := clk r; cs := cs r; ca_active := ca_active r;
     sr := v; dqi := dqi r; dq_oe := dq_oe r; rwds_oe := rwds_oe r;
     rwdso := rwdso r; ack := ack r; counter := counter r |}.
Definition with_dqi v r :=
  {| clk_phase := clk_phase r; clk := clk r; cs := cs r; ca_active := ca_active r;
     sr := sr r; dqi := v; dq_oe := dq_oe r; rwds_oe := rwds_oe r;
     rwdso := rwdso r; ack := ack r; counter := counter r |}.
Definition with_dq_oe v r :=
  {| clk_phase := clk_phase r; clk := clk r; cs := cs r; ca_active := ca_active r;
     sr := sr r; dqi := dqi r; dq_oe := v; rwds_oe := rwds_oe r;
     rwdso := rwdso r; ack := ack r; counter := counter r |}.
Definition with_rwds_oe v r :=
  {| clk_phase := clk_phase r; clk := clk r; cs := cs r; ca_active := ca_active r;
     sr := sr r; dqi := dqi r; dq_oe := dq_oe r; rwds_oe := v;
     rwdso := rwdso r; ack := ack r; counter := counter r |}.
Definition with_rwdso v r :=
  {| clk_phase := clk_phase r; clk := clk r; cs := cs r; ca_active := ca_active r;
     sr := sr r; dqi := dqi r; dq_oe := dq_oe r; rwds_oe := rwds_oe r;
     rwdso := v; ack := ack r; counter := counter r |}.
Definition with_ack v r :=
  {| clk_phase := clk_phase r; clk := clk r; cs := cs r; ca_active := ca_active r;
     sr := sr r; dqi := dqi r; dq_oe := dq_oe r; rwds_oe := rwds_oe r;
     rwdso := rwdso r; ack := v; counter := counter r |}.
Definition with_counter v r :=
  {| clk_phase := clk_phase r; clk := clk r; cs := cs r; ca_active := ca_active r;
     sr := sr r; dqi := dqi r; dq_oe := dq_oe r; rwds_oe := rwds_oe r;
     rwdso := rwdso r; ack := ack r; counter := v |}.

(** *** The schedule *)

(** The assignments that occur in the actions of [dt_seq]. *)
Inductive stmt :=
| CsEq (b : bool)                 (* cs.eq(b) *)
| DqOeEq (b : bool)               (* dq.oe.eq(b) *)
| DqOeEqWe                        (* dq.oe.eq(self.bus.we) *)
| SrEqCa                          (* sr.eq(ca) *)
| CaActiveEq (b : bool)           (* ca_active.eq(b) *)
| SrLowEq0                        (* sr[:16].eq(0) *)
| SrHighEqDatW                    (* sr[16:].eq(self.bus.dat_w) *)
| RwdsOeEq (b : bool)             (* rwds.oe.eq(b) *)
| RwdsOeEqWe                      (* rwds.oe.eq(self.bus.we) *)
| RwdsoEqNotSel (k j : Z)         (* rwdso[k].eq(~bus.sel[j]) *)
| AckEq (b : bool).               (* bus.ack.eq(b) *)

(** [lat = (latency * 8) - 4]. *)
Definition lat (latency : Z) : Z := latency * 8 - 4.

Definition dt_seq (w : width) (latency : Z) : list (Z * list stmt) :=
  [ (3, []);
    (12, [CsEq true; DqOeEq true; SrEqCa; CaActiveEq true]);
    (lat latency, [DqOeEq false; CaActiveEq false]) ]
  ++ match w with
     | W8 =>
         [ (2, [DqOeEqWe; SrLowEq0; SrHighEqDatW; RwdsOeEqWe; RwdsoEqNotSel 0 3]);
           (2, [RwdsoEqNotSel 0 2]);
           (2, [RwdsoEqNotSel 0 1]);
           (2, [RwdsoEqNotSel 0 0]) ]
     | W16 =>
         [ (2, [DqOeEqWe; SrLowEq0; SrHighEqDatW; RwdsOeEqWe;
                RwdsoEqNotSel 1 3; RwdsoEqNotSel 0 2]);
           (2, [RwdsoEqNotSel 1 1; RwdsoEqNotSel 0 0]) ]
     end
  ++ [ (2, [CsEq false; RwdsOeEq false; DqOeEq false]);
       (1, [AckEq true]);
       (1, [AckEq false]);
       (0, []) ].

(** "Convert delta-time sequencer to time sequencer". *)
Fixpoint to_t_seq (t : Z) (l : list (Z * list stmt)) : list (Z * list stmt) :=
  match l with
  | [] => []
  | (dt, a) :: rest => (t, a) :: to_t_seq (t + dt) rest
  end.

Definition t_seq (w : width) (latency : Z) : list (Z * list stmt) :=
  to_t_seq 0 (dt_seq w latency).

(** One assignment of an action: the right-hand side reads the inputs and
    the current registers, the left-hand side is written in [nxt]. *)
Definition exec_stmt (w : width) (i : Inputs) (st : stmt) (nxt : Regs) : Regs :=
  match st with
  | CsEq b => with_cs b nxt
  | DqOeEq b => with_dq_oe b nxt
  | DqOeEqWe => with_dq_oe (we i) nxt
  | SrEqCa => with_sr (ca w (we i) (adr i)) nxt
  | CaActiveEq b => with_ca_active b nxt
  | SrLowEq0 => with_sr (set_slice (sr nxt) 0 16 0) nxt
  | SrHighEqDatW => with_sr (set_slice (sr nxt) 16 48 (dat_w i)) nxt
  | RwdsOeEq b => with_rwds_oe b nxt
  | RwdsOeEqWe => with_rwds_oe (we i) nxt
  | RwdsoEqNotSel k j =>
      with_rwdso (set_bit (rwdso nxt) k (negb (Z.testbit (sel i) j))) nxt
  | AckEq b => with_ack b nxt
  end.

Definition exec_stmts (w : width) (i : Inputs) (a : list stmt) (nxt : Regs) : Regs :=
  fold_left (fun r st => exec_stmt w i st r) a nxt.

(** *** [migen.genlib.misc.timeline] *)

(** [max([e[0] for e in events])]; the first event is at time 0. *)
Definition lastevent (events : list (Z * list stmt)) : Z :=
  fold_right Z.max 0 (map fst events).

(** Width of [Signal(max=lastevent+1)]. *)
Definition bits_for (n : Z) : Z := if 0 <? n then Z.log2 n + 1 else 1.

(** The counter: it starts on the trigger, counts on by itself, and goes
    back to 0 after the last event, by an explicit reset unless
    [lastevent + 1] is a power of two (then the register overflows). *)
Definition counterlogic (events : list (Z * list stmt)) (trigger : bool) (c : Z) : Z :=
  let last := lastevent events in
  let standard :=
    if negb (c =? 0) then trunc (bits_for last) (c + 1)
    else if trigger then 1
    else c in
  if negb (Z.land last (last + 1) =? 0) then
    if c =? last then 0 else standard
  else standard.

(** [get_cond]: an event at time 0 fires with the trigger, a later one when
    the counter has its time. *)
Definition get_cond (trigger : bool) (c : Z) (t : Z) : bool :=
  if t =? 0 then trigger && (c =? 0) else c =? t.

Definition timeline (w : width) (events : list (Z * list stmt))
    (trigger : bool) (i : Inputs) (cur nxt : Regs) : Regs :=
  let nxt :=
    fold_left
      (fun r e => if get_cond trigger (counter cur) (fst e)
                  then exec_stmts w i (snd e) r else r)
      events nxt in
  with_counter (counterlogic events trigger (counter cur)) nxt.

(** *** One tick *)

(** "Data Shift Register": the value [sr] takes on 0 and 180 degrees. *)
Definition shift (w : width) (cur : Regs) : Z :=
  if ca_active cur
  then cat 8 (slice (dqi cur) 0 8) (slice (sr cur) 0 (48 - 8))
  else cat (dw_of w) (dqi cur) (slice (sr cur) 0 (48 - dw_of w)).

(** [t_seq_start = (clk_phase == 1)], trigger [bus.cyc & bus.stb & t_seq_start]. *)
Definition trigger (i : Inputs) (cur : Regs) : bool :=
  cyc i && stb i && (clk_phase cur =? 1).

(** The synchronous statements that come before the sequencer, in the
    order in which [__init__] adds them: the phase counter, the clock on
    90 and 270 degrees, the input sample, the shift on 0 and 180 degrees. *)
Definition clock_and_shift (w : width) (i : Inputs) (cur : Regs) : Regs :=
  let nxt := cur in
  let nxt := with_clk_phase (trunc 2 (clk_phase cur + 1)) nxt in
  let nxt :=
    if clk_phase cur =? 1 then with_clk (cs cur) nxt
    else if clk_phase cur =? 3 then with_clk false nxt
    else nxt in
  let nxt := with_dqi (trunc (dw_of w) (dq_i i)) nxt in
  if (clk_phase cur =? 0) || (clk_phase cur =? 2)
  then with_sr (shift w cur) nxt
  else nxt.

(** One tick; the statements of [timeline] are added last. *)
Definition step (w : width) (latency : Z) (i : Inputs) (cur : Regs) : Regs :=
  timeline w (t_seq w latency) (trigger i cur) i cur (clock_and_shift w i cur).

(** The combinatorial outputs. *)
Definition dq_o (w : width) (cur : Regs) : Z :=
  if ca_active cur then slice (sr cur) (48 - 8) 48
  else slice (sr cur) (48 - dw_of w) 48.

Definition dat_r (cur : Regs) : Z := trunc 32 (sr cur).

Definition cs_n0 (cur : Regs) : bool := negb (cs cur).

(** The registers after [n] ticks, tick [k] seeing the inputs [ins k]. *)
Fixpoint run (w : width) (latency : Z) (ins : nat -> Inputs) (n : nat)
    (s : Regs) : Regs :=
  match n with
  | O => s
  | S k => step w latency (ins k) (run w latency ins k s)
  end.

Inductive reachable (w : width) (latency : Z) : Regs -> Prop :=
| reach_reset : reachable w latency reset
| reach_step (i : Inputs) (s : Regs) :
    reachable w latency s -> reachable w latency (step w latency i s).

(** Ticks of the data phase and the times of the last events. *)
Definition data_ticks (w : width) : Z := match w with W8 => 8 | W16 => 4 end.

Definition t_end (w : width) (latency : Z) : Z :=
  15 + lat latency + data_ticks w.

(** The action of the first event whose condition holds, none if there is
    no such event. *)
Definition fired (events : list (Z * list stmt)) (trig : bool) (c : Z) : list stmt :=
  match find (fun e => get_cond trig c (fst e)) events with
  | Some e => snd e
  | None => []
  end.

(** What holds of the registers in every state the controller can be in
    (see [tl_reachable_inv] below): the counter stays within the schedule and
    fixes the clock phase, and chip-select, the command flag, the
    output-enables and the acknowledgment are on only in their part of the
    schedule. *)
Record inv (w : width) (latency : Z) (s : Regs) : Prop := {
  inv_counter : 0 <= counter s <= t_end w latency + 4;
  inv_phase : 0 <= clk_phase s < 4;
  inv_aligned : counter s <> 0 -> clk_phase s = (counter s + 1) mod 4;
  inv_cs : cs s = true <-> 4 <= counter s <= t_end w latency;
  inv_ca_active : ca_active s = true <-> 4 <= counter s <= 15;
  inv_dq_oe : dq_oe s = true ->
              4 <= counter s <= 15 \/
              16 + lat latency <= counter s <= t_end w latency;
  inv_dq_oe_cmd : 4 <= counter s <= 15 -> dq_oe s = true;
  inv_rwds_oe : rwds_oe s = true ->
                16 + lat latency <= counter s <= t_end w latency;
  inv_ack : ack s = true <-> counter s = t_end w latency + 3;
  inv_clk : clk s = true ->
            cs s = true /\ (clk_phase s = 2 \/ clk_phase s = 3)
}.

(** A host that writes one word and holds its request. *)
Definition write_request : Inputs :=
  {| cyc := true; stb := true; we := true; adr := 0; dat_w := 43981;
     sel := 15; dq_i := 0 |}.

End HyperRAM.

(** ** The burst controller [HyperRAMX2] (hyperram_ddrx2.py) *)

Module HyperRAMX2.
Import Sig.

(** The host bus ([bus.cti] is the burst type indicator) and what the PHY
    samples in one tick.  The slices of the source take [phy.dq.i] as 32
    bits and [phy.rwds.i] as 4 bits wide. *)
Record Inputs := {
  cyc : bool;
  stb : bool;
  we : bool;
  adr : Z;
  dat_w : Z;
  sel : Z;
  cti : Z;
  phy_dq_i : Z;
  phy_rwds_i : Z
}.

(** The states of the FSM.  [fsm.delayed_enter(name, target, delay)] makes
    a chain of [delay] states, the named one and [delay - 1] anonymous
    ones, each going to the next and the last to [target]: they are
    [LATENCY_WAIT k] and [WAIT k], with [k = 0] the named state. *)
Inductive State :=
| IDLE
| CA_SEND
| CA_WAIT
| LATENCY
| LATENCY_WAIT (k : nat)
| READ_WRITE_SETUP
| READ_WRITE
| READ_ACK
| CLK_OFF
| CLEANUP
| HOLD_WAIT
| WAIT (k : nat).

Record Regs := {
  fsm : State;
  cs : bool;
  clk : bool;
  dq_oe : bool;
  rwds_oe : bool;
  sr_out : Z;
  sr_in : Z;
  sr_rwds_in : Z;
  sr_rwds_out : Z;
  timeout_counter : Z
}.

(** [reset_state="IDLE"], every register 0. *)
Definition reset : Regs :=
  {| fsm := IDLE; cs := false; clk := false; dq_oe := false;
     rwds_oe := false; sr_out := 0; sr_in := 0; sr_rwds_in := 0;
     sr_rwds_out := 0; timeout_counter := 0 |}.

Definition with_fsm v r :=
  {| fsm := v; cs := cs r; clk := clk r; dq_oe := dq_oe r;
     rwds_oe := rwds_oe r; sr_out := sr_out r; sr_in := sr_in r;
     sr_rwds_in := sr_rwds_in r; sr_rwds_out := sr_rwds_out r;
     timeout_counter := timeout_counter r |}.
Definition with_cs v r :=
  {| fsm := fsm r; cs := v; clk := clk r; dq_oe := dq_oe r;
     rwds_oe := rwds_oe r; sr_out := sr_out r; sr_in := sr_in r;
     sr_rwds_in := sr_rwds_in r; sr_rwds_out := sr_rwds_out r;
     timeout_counter := timeout_counter r |}.
Definition with_clk v r :=
  {| fsm := fsm r; cs := cs r; clk := v; dq_oe := dq_oe r;
     rwds_oe := rwds_oe r; sr_out := sr_out r; sr_in := sr_in r;
     sr_rwds_in := sr_rwds_in r; sr_rwds_out := sr_rwds_out r;
     timeout_counter := timeout_counter r |}.
Definition with_dq_oe v r :=
  {| fsm := fsm r; cs := cs r; clk := clk r; dq_oe := v;
     rwds_oe := rwds_oe r; sr_out := sr_out r; sr_in := sr_in r;
     sr_rwds_in := sr_rwds_in r; sr_rwds_out := sr_rwds_out r;
     timeout_counter := timeout_counter r |}.
Definition with_rwds_oe v r :=
  {| fsm := fsm r; cs := cs r; clk := clk r; dq_oe := dq_oe r;
     rwds_oe := v; sr_out := sr_out r; sr_in := sr_in r;
     sr_rwds_in := sr_rwds_in r; sr_rwds_out := sr_rwds_out r;
     timeout_counter := timeout_counter r |}.
Definition with_sr_out v r :=
  {| fsm := fsm r; cs := cs r; clk := clk r; dq_oe := dq_oe r;
     rwds_oe := rwds_oe r; sr_out := v; sr_in := sr_in r;
     sr_rwds_in := sr_rwds_in r; sr_rwds_out := sr_rwds_out r;
     timeout_counter := timeout_counter r |}.
Definition with_sr_in v r :=
  {| fsm := fsm r; cs := cs r; clk := clk r; dq_oe := dq_oe r;
     rwds_oe := rwds_oe r; sr_out := sr_out r; sr_in := v;
     sr_rwds_in := sr_rwds_in r; sr_rwds_out := sr_rwds_out r;
     timeout_counter := timeout_counter r |}.
Definition with_sr_rwds_in v r :=
  {| fsm := fsm r; cs := cs r; clk := clk r; dq_oe := dq_oe r;
     rwds_oe := rwds_oe r; sr_out := sr_out r; sr_in := sr_in r;
     sr_rwds_in := v; sr_rwds_out := sr_rwds_out r;
     timeout_counter := timeout_counter r |}.
Definition with_sr_rwds_out v r :=
  {| fsm := fsm r; cs := cs r; clk := clk r; dq_oe := dq_oe r;
     rwds_oe := rwds_oe r; sr_out := sr_out r; sr_in := sr_in r;
     sr_rwds_in := sr_rwds_in r; sr_rwds_out := v;
     timeout_counter := timeout_counter r |}.
Definition with_timeout_counter v r :=
  {| fsm := fsm r; cs := cs r; clk := clk r; dq_oe := dq_oe r;
     rwds_oe := rwds_oe r; sr_out := sr_out r; sr_in := sr_in r;
     sr_rwds_in := sr_rwds_in r; sr_rwds_out := sr_rwds_out r;
     timeout_counter := v |}.

(** [NextState(name)] for a name given to [delayed_enter]: the first state
    of the chain, or the target itself when the delay is not positive (the
    name is then an alias of the target). *)
Definition enter (delay : Z) (chain : nat -> State) (target : State) : State :=
  if 0 <? delay then chain O else target.

(** The successor of the k-th state of a chain. *)
Definition delayed_next (delay : Z) (chain : nat -> State) (target : State)
    (k : nat) : State :=
  if Z.of_nat k + 1 <? delay then chain (S k) else target.

(** [fsm.delayed_enter("LATENCY-WAIT", "READ-WRITE-SETUP", latency - 3)] and
    [fsm.delayed_enter("WAIT", "IDLE", 10)]. *)
Definition latency_delay (latency : Z) : Z := latency - 3.
Definition wait_delay : Z := 10.

(** "Data In/Out Shift Registers": the synchronous statements of the
    module itself, which the assignments of the FSM override. *)
Definition shift_regs (i : Inputs) (cur : Regs) : Regs :=
  let nxt := cur in
  let nxt := with_sr_out (cat 32 0 (slice (sr_out cur) 0 32)) nxt in
  let nxt := with_sr_in (cat 32 (phy_dq_i i) (slice (sr_in cur) 0 32)) nxt in
  let nxt := with_sr_rwds_in (cat 4 (phy_rwds_i i) (slice (sr_rwds_in cur) 0 4)) nxt in
  with_sr_rwds_out (cat 4 (phy_rwds_i i) (slice (sr_rwds_out cur) 0 4)) nxt.

(** One tick: the statements of the current state, in their order; a
    later [NextState] or [NextValue] replaces an earlier one. *)
Definition step (latency : Z) (i : Inputs) (cur : Regs) : Regs :=
  let nxt := shift_regs i cur in
  match fsm cur with
  | IDLE =>
      if cyc i && stb i
      then with_fsm CA_SEND (with_cs true nxt)
      else nxt
  | CA_SEND =>
      let nxt := with_clk true nxt in
      let nxt := with_dq_oe true nxt in
      let nxt := with_sr_out (cat 16 0 (CommandB.ca (we i) (adr i))) nxt in
      with_fsm CA_WAIT nxt
  | CA_WAIT =>
      let nxt := with_timeout_counter 0 nxt in
      with_fsm LATENCY nxt
  | LATENCY =>
      let nxt := with_dq_oe false nxt in
      with_fsm (enter (latency_delay latency) LATENCY_WAIT READ_WRITE_SETUP) nxt
  | LATENCY_WAIT k =>
      with_fsm (delayed_next (latency_delay latency) LATENCY_WAIT READ_WRITE_SETUP k) nxt
  | READ_WRITE_SETUP =>
      let nxt := with_dq_oe (we i) nxt in
      let nxt := with_rwds_oe (we i) nxt in
      with_fsm READ_WRITE nxt
  | READ_WRITE =>
      let nxt := with_fsm READ_ACK nxt in
      let nxt :=
        if we i then
          let nxt := with_dq_oe true nxt in
          let nxt := with_sr_out (set_slice (sr_out nxt) 0 32 0) nxt in
          let nxt := with_sr_out (set_slice (sr_out nxt) 32 64 (dat_w i)) nxt in
          let nxt := with_sr_rwds_out (set_slice (sr_rwds_out nxt) 0 4 0) nxt in
          let nxt := with_sr_rwds_out
                       (set_slice (sr_rwds_out nxt) 4 8
                                  (Z.lxor (slice (sel i) 0 4) (Z.ones 4))) nxt in
          let nxt := with_fsm CLK_OFF nxt in
          if cti i =? 2 then with_fsm READ_WRITE nxt else nxt
        else nxt in
      if negb (cyc i)
      then with_fsm CLEANUP (with_clk false nxt)
      else nxt
  | READ_ACK =>
      let nxt := with_timeout_counter (trunc 6 (timeout_counter cur + 1)) nxt in
      let nxt :=
        if Z.testbit (phy_rwds_i i) 3 then
          let nxt := with_timeout_counter 0 nxt in
          if negb (cti i =? 2)
          then with_fsm CLEANUP (with_clk false nxt)
          else nxt
        else nxt in
      if negb (cyc i) || (20 <? timeout_counter cur)
      then with_fsm CLK_OFF nxt
      else nxt
  | CLK_OFF =>
      let nxt := with_clk false nxt in
      with_fsm CLEANUP nxt
  | CLEANUP =>
      let nxt := with_cs false nxt in
      let nxt := with_rwds_oe false nxt in
      let nxt := with_dq_oe false nxt in
      with_fsm HOLD_WAIT nxt
  | HOLD_WAIT =>
      let nxt := with_sr_out 0 nxt in
      let nxt := with_sr_rwds_out 0 nxt in
      with_fsm (enter wait_delay WAIT IDLE) nxt
  | WAIT k =>
      with_fsm (delayed_next wait_delay WAIT IDLE k) nxt
  end.

(** [bus.ack] is combinatorial: it is asserted in the tick in which the
    state holding [bus.ack.eq(1)] is current and its condition holds. *)
Definition ack (i : Inputs) (cur : Regs) : bool :=
  match fsm cur with
  | READ_WRITE => we i
  | READ_ACK => Z.testbit (phy_rwds_i i) 3
  | _ => false
  end.

(** The other combinatorial outputs. *)
Definition dat_r (i : Inputs) (cur : Regs) : Z :=
  cat 16 (slice (phy_dq_i i) 16 32) (slice (sr_in cur) 0 16).
Definition phy_dq_o (cur : Regs) : Z := slice (sr_out cur) 32 64.
Definition phy_rwds_o (cur : Regs) : Z := slice (sr_rwds_out cur) 4 8.
Definition phy_cs (cur : Regs) : bool := negb (cs cur).
Definition phy_clk_enable (cur : Regs) : bool := clk cur.

(** Modelled from the spec: the physical adapter
    ([litehyperbus/phy/ecp5phy_ddrx2.py], not among the sources read here)
    makes the device clock, and the clock is "gated off while idle": it
    toggles only in a tick in which the controller asserts
    [phy.clk_enable]. *)
Definition device_clock_toggles (cur : Regs) : bool := phy_clk_enable cur.

(** The registers after [n] ticks, tick [k] seeing the inputs [ins k]. *)
Fixpoint run (latency : Z) (ins : nat -> Inputs) (n : nat) (s : Regs) : Regs :=
  match n with
  | O => s
  | S k => step latency (ins k) (run latency ins k s)
  end.

(** Number of ticks among the first [n] in which [bus.ack] is asserted. *)
Fixpoint acks (latency : Z) (ins : nat -> Inputs) (n : nat) (s : Regs) : nat :=
  match n with
  | O => O
  | S k => (acks latency ins k s
            + if ack (ins k) (run latency ins k s) then 1 else 0)%nat
  end.

Inductive reachable (latency : Z) : Regs -> Prop :=
| reach_reset : reachable latency reset
| reach_step (i : Inputs) (s : Regs) :
    reachable latency s -> reachable latency (step latency i s).

(** The controller is idle in [IDLE] and in the states of the [WAIT]
    chain. *)
Definition idle (st : State) : bool :=
  match st with IDLE | WAIT _ => true | _ => false end.

(** What holds in every state the controller can be in (see
    [reachable_inv] below). *)
Definition inv (s : Regs) : Prop :=
  match fsm s with
  | IDLE | HOLD_WAIT | WAIT _ =>
      cs s = false /\ clk s = false /\ dq_oe s = false /\ rwds_oe s = false
  | CA_SEND => cs s = true /\ clk s = false
  | LATENCY | LATENCY_WAIT _ | READ_WRITE_SETUP | READ_WRITE =>
      cs s = true /\ timeout_counter s = 0
  | CA_WAIT | READ_ACK | CLK_OFF => cs s = true
  | CLEANUP => cs s = true /\ clk s = false
  end.

(** The device never shows ready: bit 3 of [phy.rwds.i] stays low. *)
Definition never_ready (ins : nat -> Inputs) : Prop :=
  forall k, Z.testbit (phy_rwds_i (ins k)) 3 = false.

(** Still waiting in READ-ACK after [k] ticks from [s], the counter at
    [k], and no acknowledgment so far. *)
Definition waiting (latency : Z) (ins : nat -> Inputs) (s : Regs) (k : nat) : Prop :=
  fsm (run latency ins k s) = READ_ACK /\
  timeout_counter (run latency ins k s) = Z.of_nat k /\
  forall j, (j < k)%nat ->
    fsm (run latency ins j s) = READ_ACK /\
    ack (ins j) (run latency ins j s) = false.

(** READ-ACK left for CLK-OFF after at most [k] ticks from [s], and no
    tick before that asserts [bus.ack]. *)
Definition left_by (latency : Z) (ins : nat -> Inputs) (s : Regs) (k : nat) : Prop :=
  exists n, (n <= k)%nat /\
    fsm (run latency ins n s) = CLK_OFF /\
    forall j, (j < n)%nat ->
      fsm (run latency ins j s) = READ_ACK /\
      ack (ins j) (run latency ins j s) = false.

(** The timeout property with its bound as a parameter: whenever the
    controller enters READ-ACK (by the tick with inputs [i0], from a
    reachable state [s0]) and the device never shows ready afterwards,
    READ-ACK is left for CLK-OFF after at most [bound] ticks, and until
    then no tick asserts [bus.ack]. *)
Definition leaves_read_ack_within (latency : Z) (bound : nat) : Prop :=
  forall (s0 : Regs) (i0 : Inputs) (ins : nat -> Inputs),
    reachable latency s0 ->
    fsm s0 <> READ_ACK ->
    fsm (step latency i0 s0) = READ_ACK ->
    never_ready ins ->
    left_by latency ins (step latency i0 s0) bound.

(** The states a transaction goes through from IDLE to READ-WRITE, by the
    number of ticks since the request: the chain of LATENCY-WAIT has
    [latency - 3] states, none if that is not positive. *)
Definition path_to_read_write (latency : Z) (k : nat) : State :=
  let d := Z.to_nat (latency_delay latency) in
  match k with
  | 0%nat => IDLE
  | 1%nat => CA_SEND
  | 2%nat => CA_WAIT
  | 3%nat => LATENCY
  | _ => if (k - 4 <? d)%nat then LATENCY_WAIT (k - 4)
         else if (k - 4 =? d)%nat then READ_WRITE_SETUP
         else READ_WRITE
  end.

(** The states from CLK-OFF back to IDLE, by the number of ticks since
    CLK-OFF: CLEANUP, HOLD-WAIT and the ten states of the WAIT chain. *)
Definition recovery_path (k : nat) : State :=
  match k with
  | 0%nat => CLK_OFF
  | 1%nat => CLEANUP
  | 2%nat => HOLD_WAIT
  | _ => if (k - 3 <? 10)%nat then WAIT (k - 3) else IDLE
  end.

(** Ticks from a dropped [cyc] back to IDLE: READ-WRITE goes straight to
    CLEANUP, READ-ACK goes through CLK-OFF. *)
Definition abort_ticks (st : State) : nat :=
  match st with READ_WRITE => 13%nat | _ => 14%nat end.

(** The device shows ready in this tick: bit 3 of [phy.rwds.i]. *)
Definition ready (i : Inputs) : bool := Z.testbit (phy_rwds_i i) 3.

(** A device that shows ready, and a host in an incrementing burst read
    with the device showing ready. *)
Definition read_ready : Inputs :=
  {| cyc := true; stb := true; we := false; adr := 0; dat_w := 0;
     sel := 15; cti := 0; phy_dq_i := 305419896; phy_rwds_i := 8 |}.

Definition burst_read_beat : Inputs :=
  {| cyc := true; stb := true; we := false; adr := 0; dat_w := 0;
     sel := 15; cti := 2; phy_dq_i := 305419896; phy_rwds_i := 8 |}.

(** A host that reads one word and keeps the cycle open; the device stays
    silent. *)
Definition read_request : Inputs :=
  {| cyc := true; stb := true; we := false; adr := 0; dat_w := 0;
     sel := 15; cti := 0; phy_dq_i := 0; phy_rwds_i := 0 |}.

(** A host in the middle of an incrementing burst write. *)
Definition burst_write_beat : Inputs :=
  {| cyc := true; stb := true; we := true; adr := 0; dat_w := 43981;
     sel := 15; cti := 2; phy_dq_i := 0; phy_rwds_i := 0 |}.

End HyperRAMX2.

(** * Proofs *)

(** ** Bits of slices *)

Section SigFacts.
Import Sig.

Lemma testbit_ones_inrange (n i : Z) :
  0 <= n -> 0 <= i -> Z.testbit (Z.ones n) i = (i <? n).
Proof.
  intros Hn Hi. destruct (Z.ltb_spec i n).
  - apply Z.ones_spec_low; lia.
  - apply Z.ones_spec_high; lia.
Qed.

Lemma testbit_slice (x lo hi i : Z) :
  0 <= lo -> lo <= hi -> 0 <= i ->
  Z.testbit (slice x lo hi) i = Z.testbit x (i + lo) && (i <? hi - lo).
Proof.
  intros Hlo Hhi Hi. unfold slice.
  rewrite Z.land_spec, Z.shiftr_spec by lia.
  rewrite testbit_ones_inrange by lia. reflexivity.
Qed.

Lemma testbit_set_slice (x lo hi v i : Z) :
  0 <= lo -> lo <= hi -> 0 <= i ->
  Z.testbit (set_slice x lo hi v) i =
  if (lo <=? i) && (i <? hi) then Z.testbit v (i - lo) else Z.testbit x i.
Proof.
  intros Hlo Hhi Hi. unfold set_slice.
  rewrite Z.lor_spec, Z.ldiff_spec.
  destruct (Z.leb_spec lo i) as [Hle | Hgt]; cbn [andb].
  - rewrite !Z.shiftl_spec by lia.
    rewrite Z.land_spec, testbit_ones_inrange by lia.
    replace (i - lo <? hi - lo) with (i <? hi)
      by (destruct (Z.ltb_spec i hi), (Z.ltb_spec (i - lo) (hi - lo)); lia).
    destruct (i <? hi); cbn.
    + now rewrite andb_false_r, andb_true_r.
    + now rewrite andb_true_r, andb_false_r, orb_false_r.
  - rewrite !Z.shiftl_spec_low by lia. cbn.
    now rewrite andb_true_r, orb_false_r.
Qed.

Lemma testbit_set_bit (x i j : Z) (b : bool) :
  0 <= i -> 0 <= j ->
  Z.testbit (set_bit x i b) j = if j =? i then b else Z.testbit x j.
Proof.
  intros Hi Hj. unfold set_bit. rewrite testbit_set_slice by lia.
  destruct (Z.eqb_spec j i) as [-> | Hne].
  - rewrite Z.leb_refl. replace (i <? i + 1) with true by (symmetry; apply Z.ltb_lt; lia).
    cbn. rewrite Z.sub_diag. now destruct b.
  - replace ((i <=? j) && (j <? i + 1)) with false; [reflexivity|].
    symmetry. destruct (Z.leb_spec i j), (Z.ltb_spec j (i + 1)); cbn; try reflexivity; lia.
Qed.

Lemma testbit_small (x n i : Z) :
  0 <= x < 2 ^ n -> n <= i -> Z.testbit x i = false.
Proof.
  intros Hx Hi. destruct (Z.eq_dec x 0) as [-> | Hne].
  - apply Z.bits_0.
  - assert (0 <= n) by (destruct (Z.le_gt_cases 0 n); [assumption|];
      rewrite Z.pow_neg_r in Hx; lia).
    apply Z.bits_above_log2; [lia|].
    apply Z.lt_le_trans with n; [|assumption].
    apply Z.log2_lt_pow2; lia.
Qed.

Lemma trunc_in_range (n x : Z) : 0 <= x < 2 ^ n -> trunc n x = x.
Proof.
  intros Hx. unfold trunc.
  assert (0 <= n) by (destruct (Z.le_gt_cases 0 n); [assumption|];
    rewrite Z.pow_neg_r in Hx; lia).
  rewrite Z.land_ones by assumption. apply Z.mod_small. assumption.
Qed.

End SigFacts.

(** Comparisons that the context settles are replaced by their value. *)
Ltac decide_cmp :=
  repeat match goal with
    | |- context [Z.leb ?a ?b] =>
        first [ rewrite (proj2 (Z.leb_le a b)) by lia
              | rewrite (proj2 (Z.leb_gt a b)) by lia ]
    | |- context [Z.ltb ?a ?b] =>
        first [ rewrite (proj2 (Z.ltb_lt a b)) by lia
              | rewrite (proj2 (Z.ltb_ge a b)) by lia ]
    | |- context [Z.eqb ?a ?b] =>
        first [ rewrite (proj2 (Z.eqb_eq a b)) by lia
              | rewrite (proj2 (Z.eqb_neq a b)) by lia ]
    end;
  cbn [andb orb negb].

(** ** Properties of the command word *)

Section CommandWord.
Import Sig.

Local Ltac bits :=
  repeat first
    [ rewrite testbit_set_bit by lia
    | rewrite testbit_set_slice by lia
    | rewrite testbit_slice by lia
    | rewrite Z.bits_0 ].

(** C1: in both controllers, for every address and write flag, bit 47 of
    the command word is the negation of the write flag and bit 45 is 1. *)
Theorem ca_rw_and_burst_bits :
  forall (w : CommandA.width) (we : bool) (adr : Z),
    Z.testbit (CommandA.ca w we adr) 47 = negb we /\
    Z.testbit (CommandA.ca w we adr) 45 = true /\
    Z.testbit (CommandB.ca we adr) 47 = negb we /\
    Z.testbit (CommandB.ca we adr) 45 = true.
Proof.
  intros w we adr. unfold CommandA.ca, CommandB.ca.
  repeat split; destruct w; bits; reflexivity.
Qed.

Local Ltac field_bits :=
  decide_cmp; bits; decide_cmp;
  rewrite ?andb_true_r, ?andb_false_r, ?orb_false_r;
  try reflexivity.

(** A field of the decoded address, shifted into its place. *)
Lemma testbit_field (c lo hi sh n : Z) :
  0 <= lo -> lo <= hi -> 0 <= sh -> 0 <= n ->
  Z.testbit (Z.shiftl (slice c lo hi) sh) n =
  (sh <=? n) && (n <? sh + (hi - lo)) && Z.testbit c (n - sh + lo).
Proof.
  intros Hlo Hhi Hsh Hn. rewrite Z.shiftl_spec by lia.
  destruct (Z.leb_spec sh n) as [Hle | Hgt]; cbn [andb].
  - rewrite testbit_slice by lia.
    replace (n - sh <? hi - lo) with (n <? sh + (hi - lo))
      by (destruct (Z.ltb_spec n (sh + (hi - lo))),
                   (Z.ltb_spec (n - sh) (hi - lo)); lia).
    apply andb_comm.
  - apply Z.testbit_neg_r. lia.
Qed.

(** C2: on the fixed-timeline controller the split of the address over the
    command word loses nothing.  For a 16-bit bus, bits 0, [2:1] and
    [44:16] put back together give the address; for an 8-bit bus, bit 0 is
    0 and bits [2:1] and [44:16] give the address. *)
Theorem ca_address_roundtrip :
  forall (we : bool) (adr : Z),
    0 <= adr < 2 ^ CommandA.adr_width ->
    CommandA.decode16 (CommandA.ca CommandA.W16 we adr) = adr /\
    Z.testbit (CommandA.ca CommandA.W8 we adr) 0 = false /\
    CommandA.decode8 (CommandA.ca CommandA.W8 we adr) = adr.
Proof.
  intros we adr Hadr.
  assert (Hhigh : forall i, 30 <= i -> Z.testbit adr i = false)
    by (intros i Hi; apply (testbit_small adr CommandA.adr_width); [assumption|exact Hi]).
  unfold CommandA.adr_width in *.
  clear Hadr. repeat split.
  - apply Z.bits_inj'; intros n Hn.
    unfold CommandA.decode16, CommandA.ca, CommandA.adr_width.
    rewrite !Z.lor_spec.
    rewrite <- (Z.shiftl_0_r (slice _ 0 1)).
    rewrite !testbit_field by lia.
    assert (Hcase : n = 0 \/ 1 <= n < 3 \/ 3 <= n < 30 \/ 30 <= n < 32 \/ 32 <= n)
      by lia.
    destruct Hcase as [-> | [H | [H | [H | H]]]]; field_bits.
    + f_equal; lia.
    + f_equal; lia.
    + symmetry; apply Hhigh; lia.
    + symmetry; apply Hhigh; lia.
  - unfold CommandA.ca. bits. reflexivity.
  - apply Z.bits_inj'; intros n Hn.
    unfold CommandA.decode8, CommandA.ca, CommandA.adr_width.
    rewrite !Z.lor_spec.
    rewrite <- (Z.shiftl_0_r (slice _ 1 3)).
    rewrite !testbit_field by lia.
    assert (Hcase : 0 <= n < 2 \/ 2 <= n < 30 \/ 30 <= n < 31 \/ 31 <= n)
      by lia.
    destruct Hcase as [H | [H | [H | H]]]; field_bits.
    + f_equal; lia.
    + f_equal; lia.
    + symmetry; apply Hhigh; lia.
    + symmetry; apply Hhigh; lia.
Qed.

Lemma ca_address_roundtrip_witness :
  CommandA.decode16 (CommandA.ca CommandA.W16 true 123456789) = 123456789 /\
  Z.testbit (CommandA.ca CommandA.W8 true 123456789) 0 = false /\
  CommandA.decode8 (CommandA.ca CommandA.W8 true 123456789) = 123456789.
Proof.
  apply (ca_address_roundtrip true 123456789).
  unfold CommandA.adr_width. lia.
Defined.

(** A slice only looks at the bits below its upper end. *)
Lemma slice_land_ones (x lo hi k : Z) :
  0 <= lo -> lo <= hi -> hi <= k ->
  slice (Z.land x (Z.ones k)) lo hi = slice x lo hi.
Proof.
  intros Hlo Hhi Hk. apply Z.bits_inj'; intros n Hn.
  rewrite !testbit_slice by lia.
  destruct (Z.ltb_spec n (hi - lo)) as [Hlt | Hge].
  - rewrite Z.land_spec, testbit_ones_inrange by lia.
    rewrite (proj2 (Z.ltb_lt (n + lo) k)) by lia.
    now rewrite !andb_true_r.
  - now rewrite !andb_false_r.
Qed.

(** C9: in the burst controller, whatever the address, bit 0 and bits 35
    to 44 of the command word are 0, bits 16 to 34 are address bits 2 to
    20, and the word depends on the low 21 bits of the 22-bit address
    only. *)
Theorem x2_ca_address_field :
  forall (we : bool) (adr : Z),
    Z.testbit (CommandB.ca we adr) 0 = false /\
    slice (CommandB.ca we adr) 35 45 = 0 /\
    slice (CommandB.ca we adr) 16 35 = slice adr 2 21 /\
    CommandB.ca we adr = CommandB.ca we (Z.land adr (Z.ones 21)).
Proof.
  intros we adr. repeat split.
  - unfold CommandB.ca. bits. reflexivity.
  - apply Z.bits_inj'; intros n Hn. unfold CommandB.ca.
    rewrite Z.bits_0, testbit_slice by lia.
    destruct (Z.ltb_spec n (45 - 35)); [|apply andb_false_r].
    bits. decide_cmp. reflexivity.
  - apply Z.bits_inj'; intros n Hn. unfold CommandB.ca.
    rewrite (testbit_slice _ 16 35) by lia.
    destruct (Z.ltb_spec n (35 - 16)).
    + rewrite andb_true_r.
      rewrite testbit_set_bit, !testbit_set_slice by lia.
      decide_cmp. f_equal. lia.
    + rewrite andb_false_r, testbit_slice by lia.
      rewrite (proj2 (Z.ltb_ge n (21 - 2))) by lia. now rewrite andb_false_r.
  - unfold CommandB.ca.
    now rewrite (slice_land_ones adr 2 21 21), (slice_land_ones adr 0 2 21) by lia.
Qed.

End CommandWord.


(** ** The burst controller *)

Section BurstFSM.
Import Sig HyperRAMX2.

Lemma run_S (latency : Z) (ins : nat -> Inputs) (n : nat) (s : Regs) :
  run latency ins (S n) s = step latency (ins n) (run latency ins n s).
Proof. reflexivity. Qed.

Lemma reachable_run (latency : Z) (ins : nat -> Inputs) (n : nat) (s : Regs) :
  reachable latency s -> reachable latency (run latency ins n s).
Proof.
  intros Hs. induction n as [|n IH]; cbn [run].
  - exact Hs.
  - apply reach_step. exact IH.
Qed.

Lemma step_inv (latency : Z) (i : Inputs) (s : Regs) :
  inv s -> inv (step latency i s).
Proof.
  unfold inv, step, enter, delayed_next.
  destruct (fsm s) eqn:Hf; cbn; intros H;
    repeat match goal with
      | |- context [if ?c then _ else _] => destruct c eqn:?; cbn
      end;
    rewrite ?Hf; intuition (auto; try congruence).
Qed.

Lemma reachable_inv (latency : Z) (s : Regs) :
  reachable latency s -> inv s.
Proof.
  induction 1 as [|i s Hs IH].
  - cbn. auto.
  - apply step_inv. exact IH.
Qed.

(** *** Burst writes *)

Lemma step_burst_write (latency : Z) (i : Inputs) (s : Regs) :
  fsm s = READ_WRITE -> we i = true -> cti i = 2 -> cyc i = true ->
  fsm (step latency i s) = READ_WRITE /\ ack i s = true.
Proof.
  intros Hf Hwe Hcti Hcyc. unfold step, ack.
  rewrite Hf, Hwe, Hcti, Hcyc. cbn. auto.
Qed.

(** From READ-WRITE, N ticks in which the host writes, signals an
    incrementing burst ([cti = 0b010]) and keeps [cyc] asserted give N
    acknowledgments, one in each tick, and leave the controller in
    READ-WRITE. *)
Lemma burst_beats_from_read_write :
  forall (latency : Z) (N : nat) (ins : nat -> Inputs) (s : Regs),
    fsm s = READ_WRITE ->
    (forall k, (k < N)%nat ->
       we (ins k) = true /\ cti (ins k) = 2 /\ cyc (ins k) = true) ->
    acks latency ins N s = N /\
    (forall k, (k < N)%nat -> ack (ins k) (run latency ins k s) = true) /\
    (forall k, (k <= N)%nat -> fsm (run latency ins k s) = READ_WRITE).
Proof.
  intros latency N ins s Hf. induction N as [|N IH]; intros Hin.
  - cbn. repeat split; intros k Hk; [lia|].
    replace k with O by lia. exact Hf.
  - destruct IH as (Hacks & Hack & Hst); [intros k Hk; apply Hin; lia|].
    destruct (Hin N) as (Hwe & Hcti & Hcyc); [lia|].
    destruct (step_burst_write latency (ins N) (run latency ins N s))
      as (Hnext & HackN); auto.
    repeat split.
    + cbn [acks]. rewrite Hacks, HackN. lia.
    + intros k Hk. destruct (Nat.eq_dec k N) as [-> | Hne]; [exact HackN|].
      apply Hack. lia.
    + intros k Hk. destruct (Nat.eq_dec k (S N)) as [-> | Hne].
      * rewrite run_S. exact Hnext.
      * apply Hst. lia.
Qed.

(** At the default latency a write request in IDLE has the controller in
    READ-WRITE eight ticks later, with no acknowledgment on the way and
    IDLE left after the first tick. *)
Example write_reaches_read_write :
  fsm (run 6 (fun _ => burst_write_beat) 8 reset) = READ_WRITE /\
  acks 6 (fun _ => burst_write_beat) 8 reset = 0%nat /\
  map (fun k => fsm (run 6 (fun _ => burst_write_beat) k reset))
      [0; 1; 2; 3; 4; 5; 6; 7]%nat =
  [IDLE; CA_SEND; CA_WAIT; LATENCY; LATENCY_WAIT 0; LATENCY_WAIT 1;
   LATENCY_WAIT 2; READ_WRITE_SETUP].
Proof. repeat split. Qed.

(** A request in IDLE brings the controller to READ-WRITE in
    [5 + max 0 (latency - 3)] ticks, through the states of
    [path_to_read_write], whatever the latency. *)
Lemma request_follows_path (latency : Z) (ins : nat -> Inputs) (s : Regs) :
  fsm s = IDLE -> cyc (ins 0%nat) && stb (ins 0%nat) = true ->
  forall k : nat,
    (k <= 5 + Z.to_nat (latency_delay latency))%nat ->
    fsm (run latency ins k s) = path_to_read_write latency k.
Proof.
  intros Hidle Hreq. induction k as [|k IH]; intros Hk; [exact Hidle|].
  specialize (IH ltac:(lia)). cbn [run]. unfold step. rewrite IH.
  destruct k as [|[|[|[|k]]]]; cbn [path_to_read_write].
  - rewrite Hreq. reflexivity.
  - reflexivity.
  - reflexivity.
  - cbn [fsm with_fsm with_dq_oe]. unfold enter. cbn [Nat.sub].
    destruct (Z.ltb_spec 0 (latency_delay latency));
      destruct (Nat.ltb_spec 0 (Z.to_nat (latency_delay latency)));
      destruct (Nat.eqb_spec 0 (Z.to_nat (latency_delay latency)));
      try reflexivity; lia.
  - replace (S (S (S (S k))) - 4)%nat with k by lia.
    replace (S (S (S (S (S k)))) - 4)%nat with (S k) by lia.
    destruct (Nat.ltb_spec k (Z.to_nat (latency_delay latency))).
    + cbn [fsm with_fsm]. unfold delayed_next.
      destruct (Z.ltb_spec (Z.of_nat k + 1) (latency_delay latency));
        destruct (Nat.ltb_spec (S k) (Z.to_nat (latency_delay latency)));
        destruct (Nat.eqb_spec (S k) (Z.to_nat (latency_delay latency)));
        try reflexivity; lia.
    + destruct (Nat.eqb_spec k (Z.to_nat (latency_delay latency))); [|lia].
      cbn [fsm with_fsm with_rwds_oe with_dq_oe].
      destruct (Nat.ltb_spec (S k) (Z.to_nat (latency_delay latency))); [lia|].
      destruct (Nat.eqb_spec (S k) (Z.to_nat (latency_delay latency))); [lia|].
      reflexivity.
Qed.

Lemma request_reaches_read_write (latency : Z) (ins : nat -> Inputs) (s : Regs) :
  fsm s = IDLE -> cyc (ins 0%nat) && stb (ins 0%nat) = true ->
  let n := (5 + Z.to_nat (latency_delay latency))%nat in
  fsm (run latency ins n s) = READ_WRITE /\
  (forall k, (1 <= k <= n)%nat -> fsm (run latency ins k s) <> IDLE) /\
  (forall k, (k < n)%nat -> ack (ins k) (run latency ins k s) = false).
Proof.
  intros Hidle Hreq n.
  pose proof (request_follows_path latency ins s Hidle Hreq) as Hpath.
  assert (Hshape : forall k, (k <= n)%nat ->
            match path_to_read_write latency k with
            | IDLE => k = 0%nat
            | READ_WRITE => k = n
            | READ_ACK => False
            | _ => (k < n)%nat
            end).
  { intros k Hk. subst n. unfold path_to_read_write.
    destruct k as [|[|[|[|k]]]]; try lia.
    replace (S (S (S (S k))) - 4)%nat with k by lia.
    destruct (Nat.ltb_spec k (Z.to_nat (latency_delay latency))); [lia|].
    destruct (Nat.eqb_spec k (Z.to_nat (latency_delay latency))); lia. }
  split; [|split].
  - rewrite Hpath by lia. subst n. unfold path_to_read_write.
    replace (5 + Z.to_nat (latency_delay latency) - 4)%nat
      with (S (Z.to_nat (latency_delay latency))) by lia.
    cbn [Nat.add].
    destruct (Nat.ltb_spec (S (Z.to_nat (latency_delay latency)))
                (Z.to_nat (latency_delay latency))); [lia|].
    destruct (Nat.eqb_spec (S (Z.to_nat (latency_delay latency)))
                (Z.to_nat (latency_delay latency))); [lia|].
    reflexivity.
  - intros k Hk. rewrite Hpath by lia. specialize (Hshape k ltac:(lia)).
    destruct (path_to_read_write latency k); try discriminate. lia.
  - intros k Hk. unfold ack. rewrite Hpath by lia.
    specialize (Hshape k ltac:(lia)).
    destruct (path_to_read_write latency k); try reflexivity; [lia | contradiction].
Qed.

Lemma run_add (latency : Z) (ins : nat -> Inputs) (n m : nat) (s : Regs) :
  run latency ins (n + m) s =
  run latency (fun k => ins (n + k)%nat) m (run latency ins n s).
Proof.
  induction m as [|m IH].
  - rewrite Nat.add_0_r. reflexivity.
  - rewrite Nat.add_succ_r. cbn [run]. rewrite IH. reflexivity.
Qed.

Lemma acks_add (latency : Z) (ins : nat -> Inputs) (n m : nat) (s : Regs) :
  acks latency ins (n + m) s =
  (acks latency ins n s
   + acks latency (fun k => ins (n + k)%nat) m (run latency ins n s))%nat.
Proof.
  induction m as [|m IH].
  - rewrite Nat.add_0_r. cbn [acks]. lia.
  - rewrite Nat.add_succ_r. cbn [acks]. rewrite IH, run_add. lia.
Qed.

Lemma acks_none (latency : Z) (ins : nat -> Inputs) (n : nat) (s : Regs) :
  (forall k, (k < n)%nat -> ack (ins k) (run latency ins k s) = false) ->
  acks latency ins n s = 0%nat.
Proof.
  induction n as [|n IH]; intros Hno; cbn [acks]; [reflexivity|].
  rewrite IH by (intros k Hk; apply Hno; lia).
  rewrite Hno by lia. reflexivity.
Qed.

(** C7: a write request in IDLE followed, once the controller is in
    READ-WRITE (after [n = 5 + max 0 (latency - 3)] ticks), by N ticks in
    which the host writes, signals an incrementing burst ([cti = 0b010])
    and keeps [cyc] asserted: [bus.ack] is asserted in exactly those N
    ticks of the transaction, N times in all, and from the request on the
    FSM is never in IDLE, staying in READ-WRITE from one beat to the
    next. *)
Theorem burst_write_n_beats_n_acks :
  forall (latency : Z) (N : nat) (ins : nat -> Inputs) (s : Regs),
    let n := (5 + Z.to_nat (latency_delay latency))%nat in
    fsm s = IDLE ->
    cyc (ins 0%nat) && stb (ins 0%nat) = true ->
    (forall k, (n <= k < n + N)%nat ->
       we (ins k) = true /\ cti (ins k) = 2 /\ cyc (ins k) = true) ->
    acks latency ins (n + N) s = N /\
    (forall k, (k < n)%nat -> ack (ins k) (run latency ins k s) = false) /\
    (forall k, (n <= k < n + N)%nat -> ack (ins k) (run latency ins k s) = true) /\
    (forall k, (n <= k <= n + N)%nat -> fsm (run latency ins k s) = READ_WRITE) /\
    (forall k, (1 <= k <= n + N)%nat -> fsm (run latency ins k s) <> IDLE).
Proof.
  intros latency N ins s n Hidle Hreq Hbeats.
  destruct (request_reaches_read_write latency ins s Hidle Hreq)
    as (Hrw & Hbusy & Hquiet). fold n in Hrw, Hbusy, Hquiet.
  destruct (burst_beats_from_read_write latency N (fun k => ins (n + k)%nat)
              (run latency ins n s) Hrw) as (Hacks & Hack & Hstay).
  { intros k Hk. apply Hbeats. lia. }
  assert (Hin : forall k, (n <= k <= n + N)%nat ->
            fsm (run latency ins k s) = READ_WRITE).
  { intros k Hk. replace k with (n + (k - n))%nat by lia.
    rewrite run_add. apply Hstay. lia. }
  split; [|split; [|split; [|split]]].
  - rewrite acks_add, Hacks, (acks_none latency ins n s Hquiet). lia.
  - exact Hquiet.
  - intros k Hk. replace k with (n + (k - n))%nat by lia.
    rewrite run_add. apply Hack. lia.
  - exact Hin.
  - intros k Hk. destruct (Nat.le_gt_cases k n) as [Hle | Hgt].
    + apply Hbusy. lia.
    + rewrite Hin by lia. discriminate.
Qed.

Lemma burst_write_n_beats_n_acks_witness :
  acks 6 (fun _ => burst_write_beat) (8 + 3) reset = 3%nat /\
  (forall k, (k < 8)%nat ->
     ack burst_write_beat (run 6 (fun _ => burst_write_beat) k reset) = false) /\
  (forall k, (8 <= k < 8 + 3)%nat ->
     ack burst_write_beat (run 6 (fun _ => burst_write_beat) k reset) = true) /\
  (forall k, (8 <= k <= 8 + 3)%nat ->
     fsm (run 6 (fun _ => burst_write_beat) k reset) = READ_WRITE) /\
  (forall k, (1 <= k <= 8 + 3)%nat ->
     fsm (run 6 (fun _ => burst_write_beat) k reset) <> IDLE).
Proof.
  apply (burst_write_n_beats_n_acks 6 3 (fun _ => burst_write_beat) reset).
  - reflexivity.
  - reflexivity.
  - intros k Hk. repeat split.
Defined.

(** *** The read timeout *)

Lemma step_read_ack_silent (latency : Z) (i : Inputs) (s : Regs) :
  fsm s = READ_ACK -> Z.testbit (phy_rwds_i i) 3 = false ->
  fsm (step latency i s) =
    (if negb (cyc i) || (20 <? timeout_counter s) then CLK_OFF else READ_ACK) /\
  timeout_counter (step latency i s) = trunc 6 (timeout_counter s + 1) /\
  ack i s = false.
Proof.
  intros Hf Hr. unfold step, ack. rewrite Hf, Hr.
  destruct (negb (cyc i) || (20 <? timeout_counter s)); cbn; auto.
Qed.

(** The counter of READ-ACK is 0 whenever the state is entered. *)
Lemma read_ack_entered_at_zero (latency : Z) (i : Inputs) (s : Regs) :
  reachable latency s -> fsm s <> READ_ACK ->
  fsm (step latency i s) = READ_ACK ->
  timeout_counter (step latency i s) = 0.
Proof.
  intros Hr Hne. apply reachable_inv in Hr. revert Hr.
  unfold inv, step, enter, delayed_next.
  destruct (fsm s) eqn:Hf; try congruence; cbn;
    repeat match goal with
      | |- context [if ?c then _ else _] => destruct c eqn:?; cbn
      end;
    try discriminate; intuition congruence.
Qed.

Section Waiting.
Variable latency : Z.
Variable ins : nat -> Inputs.
Variable s : Regs.
Hypothesis Hentry : fsm s = READ_ACK.
Hypothesis Hzero : timeout_counter s = 0.
Hypothesis Hsilent : never_ready ins.

Local Abbreviation waiting := (HyperRAMX2.waiting latency ins s).
Local Abbreviation left_by := (HyperRAMX2.left_by latency ins s).

Lemma waiting_next (k : nat) :
  (k <= 20)%nat -> waiting k ->
  if cyc (ins k) then waiting (S k) else left_by (S k).
Proof.
  intros Hk (Hf & Hc & Hbefore).
  destruct (step_read_ack_silent latency (ins k) (run latency ins k s) Hf (Hsilent k))
    as (Hf' & Hc' & Hack).
  rewrite Hc in Hf', Hc'.
  rewrite (proj2 (Z.ltb_ge 20 (Z.of_nat k))) in Hf' by lia.
  rewrite trunc_in_range in Hc' by (change (2 ^ 6) with 64; lia).
  assert (Hupto : forall j, (j < S k)%nat ->
            fsm (run latency ins j s) = READ_ACK /\
            ack (ins j) (run latency ins j s) = false).
  { intros j Hj. destruct (Nat.eq_dec j k) as [-> | Hne]; [auto|].
    apply Hbefore. lia. }
  destruct (cyc (ins k)); cbn in Hf'.
  - split; [|split]; [rewrite run_S; exact Hf'| rewrite run_S, Hc'; lia | exact Hupto].
  - exists (S k). split; [lia|]. split; [rewrite run_S; exact Hf' | exact Hupto].
Qed.

Lemma waiting_or_left (k : nat) :
  (k <= 21)%nat -> waiting k \/ left_by k.
Proof.
  induction k as [|k IH]; intros Hk.
  - left. split; [exact Hentry|]. split; [exact Hzero|]. intros j Hj. lia.
  - destruct IH as [Hw | (n & Hn & Hrest)]; [lia| |].
    + pose proof (waiting_next k ltac:(lia) Hw) as Hnext.
      destruct (cyc (ins k)); [left | right]; exact Hnext.
    + right. exists n. split; [lia | exact Hrest].
Qed.

(** With the counter at 21 the comparison [timeout_counter > 20] holds and
    the next state is CLK-OFF, whatever the host does. *)
Lemma timeout_fires : waiting 21 -> left_by 22.
Proof.
  intros (Hf & Hc & Hbefore).
  destruct (step_read_ack_silent latency (ins 21%nat) (run latency ins 21 s) Hf
              (Hsilent 21%nat)) as (Hf' & _ & Hack).
  rewrite Hc in Hf'. change (20 <? Z.of_nat 21) with true in Hf'.
  rewrite orb_true_r in Hf'.
  exists 22%nat. split; [lia|]. split; [rewrite run_S; exact Hf'|].
  intros j Hj. destruct (Nat.eq_dec j 21) as [-> | Hne]; [auto|].
  apply Hbefore. lia.
Qed.

Lemma left_by_22 : left_by 22.
Proof.
  destruct (waiting_or_left 21 ltac:(lia)) as [Hw | (n & Hn & Hrest)].
  - apply timeout_fires. exact Hw.
  - exists n. split; [lia | exact Hrest].
Qed.

(** A host that keeps [cyc] asserted is kept waiting for 21 ticks and
    more. *)
Lemma held_cycle_waits (k : nat) :
  (forall j, (j < k)%nat -> cyc (ins j) = true) ->
  (k <= 21)%nat -> waiting k.
Proof.
  induction k as [|k IH]; intros Hcyc Hk.
  - split; [exact Hentry|]. split; [exact Hzero|]. intros j Hj. lia.
  - pose proof (waiting_next k ltac:(lia) (IH ltac:(intros; apply Hcyc; lia) ltac:(lia)))
      as Hnext.
    rewrite Hcyc in Hnext by lia. exact Hnext.
Qed.

End Waiting.

(** C3, with the bound the comparison [timeout_counter > 20] gives: when
    READ-ACK is entered and the device never shows ready, the controller
    is in CLK-OFF at most 22 ticks later, and no tick in between asserts
    [bus.ack]. *)
Theorem read_ack_timeout_22 :
  forall latency : Z, leaves_read_ack_within latency 22.
Proof.
  intros latency s0 i0 ins Hreach Hbefore Hentry Hsilent.
  apply left_by_22.
  - exact Hentry.
  - apply read_ack_entered_at_zero; assumption.
  - exact Hsilent.
Qed.

Lemma read_ack_timeout_22_witness :
  left_by 6 (fun _ => read_request)
    (step 6 read_request (run 6 (fun _ => read_request) 8 reset)) 22.
Proof.
  apply (read_ack_timeout_22 6).
  - apply reachable_run. apply reach_reset.
  - vm_compute. discriminate.
  - vm_compute. reflexivity.
  - intros k. reflexivity.
Defined.

(** C3 as stated, with 21 ticks, fails: a read at the default latency 6
    whose host keeps [cyc] asserted is still in READ-ACK 21 ticks after
    entering it. *)
Lemma read_ack_not_left_within_21 : ~ leaves_read_ack_within 6 21.
Proof.
  intros Hclaim.
  destruct (Hclaim (run 6 (fun _ => read_request) 8 reset) read_request
              (fun _ => read_request)) as (n & Hn & Hoff & _).
  - apply reachable_run. apply reach_reset.
  - vm_compute. discriminate.
  - vm_compute. reflexivity.
  - intros k. reflexivity.
  - assert (Hw : waiting 6 (fun _ => read_request)
                   (step 6 read_request (run 6 (fun _ => read_request) 8 reset)) n).
    { apply held_cycle_waits; try reflexivity; try lia.
      intros k. reflexivity. }
    destruct Hw as (Hf & _). rewrite Hf in Hoff. discriminate.
Qed.

End BurstFSM.

(** ** Construction of the fixed-timeline controller *)

Section Construction.
Import CommandA HyperRAM.

(** C8: a data bus that is neither 8 nor 16 bits wide, or more than two
    chip-select pads, make [__init__] fail on an assertion; and a
    controller that was built has a width of 8 or 16, that of its pads,
    and one or two chip-selects, the only widths the tick function is
    defined for. *)
Theorem init_rejects_unsupported_pads :
  forall (pads : Pads) (latency : Z),
    ((pad_width (pads_dq pads) <> 8 /\ pad_width (pads_dq pads) <> 16) \/
     2 < pads_cs_n_len pads ->
     init pads latency = inl AssertionError) /\
    (forall cfg : Config,
       init pads latency = inr cfg ->
       dw_of (cfg_width cfg) = pad_width (pads_dq pads) /\
       1 <= pads_cs_n_len pads <= 2).
Proof.
  intros pads latency. unfold init.
  destruct (Z.eqb_spec (pad_width (pads_dq pads)) 8) as [H8 | H8];
    [|destruct (Z.eqb_spec (pad_width (pads_dq pads)) 16) as [H16 | H16]];
    destruct (Z.leb_spec (pads_cs_n_len pads) 0);
    destruct (Z.leb_spec (pads_cs_n_len pads) 2); cbn;
    (split; [intros [[? ?] | ?]; try reflexivity; lia
            | intros cfg Hcfg; inversion Hcfg; subst; cbn; lia || discriminate]).
Qed.

Lemma init_rejects_unsupported_pads_witness :
  init {| pads_dq := PlainPad 4; pads_rwds := PlainPad 1; pads_cs_n_len := 1;
          pads_has_rst_n := true; pads_has_clk := true |} 6
    = inl AssertionError /\
  init {| pads_dq := TristatePad 8; pads_rwds := TristatePad 1; pads_cs_n_len := 3;
          pads_has_rst_n := false; pads_has_clk := false |} 6
    = inl AssertionError /\
  dw_of (cfg_width {| cfg_width := W16; cfg_latency := 6;
                      cfg_drives_second_cs := true |}) = 16 /\
  1 <= 2 <= 2.
Proof.
  split; [|split].
  - apply (proj1 (init_rejects_unsupported_pads
                    {| pads_dq := PlainPad 4; pads_rwds := PlainPad 1;
                       pads_cs_n_len := 1; pads_has_rst_n := true;
                       pads_has_clk := true |} 6)).
    left. cbn. lia.
  - apply (proj1 (init_rejects_unsupported_pads
                    {| pads_dq := TristatePad 8; pads_rwds := TristatePad 1;
                       pads_cs_n_len := 3; pads_has_rst_n := false;
                       pads_has_clk := false |} 6)).
    right. cbn. lia.
  - apply (proj2 (init_rejects_unsupported_pads
                    {| pads_dq := PlainPad 16; pads_rwds := PlainPad 2;
                       pads_cs_n_len := 2; pads_has_rst_n := true;
                       pads_has_clk := true |} 6)
                 {| cfg_width := W16; cfg_latency := 6;
                    cfg_drives_second_cs := true |}).
    reflexivity.
Defined.

End Construction.

(** ** The timeline of the fixed-timeline controller *)

Section Timeline.
Import Sig CommandA HyperRAM.

(** *** The counter of [timeline] *)

Lemma bits_for_bound (n : Z) : 0 < n -> n < 2 ^ bits_for n.
Proof.
  intros Hn. unfold bits_for. rewrite (proj2 (Z.ltb_lt 0 n)) by assumption.
  apply Z.log2_spec. assumption.
Qed.

(** When [lastevent & (lastevent + 1)] is 0 the counter is exactly as wide
    as it takes for [lastevent + 1] to overflow to 0. *)
Lemma bits_for_overflow (n : Z) :
  0 < n -> Z.land n (n + 1) = 0 -> n + 1 = 2 ^ bits_for n.
Proof.
  intros Hn Hland. pose proof (bits_for_bound n Hn) as Hlt.
  unfold bits_for in *. rewrite (proj2 (Z.ltb_lt 0 n)) in * by assumption.
  destruct (Z.log2_spec n Hn) as [Hlo _].
  destruct (Z.eq_dec (n + 1) (2 ^ (Z.log2 n + 1))) as [Heq | Hne]; [exact Heq|].
  exfalso.
  assert (Hlog : Z.log2 (n + 1) = Z.log2 n).
  { apply Z.log2_unique; [apply Z.log2_nonneg|].
    replace (Z.succ (Z.log2 n)) with (Z.log2 n + 1) by lia. lia. }
  assert (Hbit : Z.testbit (Z.land n (n + 1)) (Z.log2 n) = true).
  { rewrite Z.land_spec, (Z.bit_log2 n Hn).
    rewrite <- Hlog. rewrite Z.bit_log2 by lia. reflexivity. }
  rewrite Hland, Z.bits_0 in Hbit. discriminate.
Qed.

Lemma trunc_pow2 (n : Z) : 0 <= n -> trunc n (2 ^ n) = 0.
Proof.
  intros Hn. unfold trunc. rewrite Z.land_ones by assumption.
  apply Z.mod_same. apply Z.pow_nonzero; lia.
Qed.

(** The counter runs from the trigger up to [lastevent] and then is 0
    again, whichever of the two ways of going back the library picked. *)
Lemma counterlogic_spec (events : list (Z * list stmt)) (trig : bool) (c : Z) :
  0 < lastevent events -> 0 <= c <= lastevent events ->
  counterlogic events trig c =
    if c =? lastevent events then 0
    else if c =? 0 then (if trig then 1 else 0)
    else c + 1.
Proof.
  intros Hlast Hc. unfold counterlogic.
  set (last := lastevent events) in *.
  pose proof (bits_for_bound last Hlast) as Hwide.
  destruct (Z.eqb_spec (Z.land last (last + 1)) 0) as [Hpow | Hnpow]; cbn [negb].
  - destruct (Z.eqb_spec c last) as [-> | Hne].
    + rewrite (proj2 (Z.eqb_neq last 0)) by lia. cbn [negb].
      rewrite (bits_for_overflow last Hlast Hpow).
      apply trunc_pow2. unfold bits_for.
      rewrite (proj2 (Z.ltb_lt 0 last)) by assumption.
      pose proof (Z.log2_nonneg last). lia.
    + destruct (Z.eqb_spec c 0) as [-> | Hnz]; cbn [negb].
      * destruct trig; reflexivity.
      * apply trunc_in_range. lia.
  - destruct (Z.eqb_spec c last) as [-> | Hne]; [reflexivity|].
    destruct (Z.eqb_spec c 0) as [-> | Hnz]; cbn [negb].
    + destruct trig; reflexivity.
    + apply trunc_in_range. lia.
Qed.

(** *** The schedule, with its times written out *)

Lemma lat_ge_4 (latency : Z) : 1 <= latency -> 4 <= lat latency.
Proof. unfold lat. lia. Qed.

Lemma t_seq_W16 (latency : Z) :
  t_seq W16 latency =
  [ (0, []);
    (3, [CsEq true; DqOeEq true; SrEqCa; CaActiveEq true]);
    (15, [DqOeEq false; CaActiveEq false]);
    (15 + lat latency,
     [DqOeEqWe; SrLowEq0; SrHighEqDatW; RwdsOeEqWe;
      RwdsoEqNotSel 1 3; RwdsoEqNotSel 0 2]);
    (17 + lat latency, [RwdsoEqNotSel 1 1; RwdsoEqNotSel 0 0]);
    (t_end W16 latency, [CsEq false; RwdsOeEq false; DqOeEq false]);
    (t_end W16 latency + 2, [AckEq true]);
    (t_end W16 latency + 3, [AckEq false]);
    (t_end W16 latency + 4, []) ].
Proof.
  unfold t_seq, dt_seq, t_end, data_ticks. cbn [app to_t_seq].
  repeat (f_equal; try lia).
Qed.

Lemma t_seq_W8 (latency : Z) :
  t_seq W8 latency =
  [ (0, []);
    (3, [CsEq true; DqOeEq true; SrEqCa; CaActiveEq true]);
    (15, [DqOeEq false; CaActiveEq false]);
    (15 + lat latency,
     [DqOeEqWe; SrLowEq0; SrHighEqDatW; RwdsOeEqWe; RwdsoEqNotSel 0 3]);
    (17 + lat latency, [RwdsoEqNotSel 0 2]);
    (19 + lat latency, [RwdsoEqNotSel 0 1]);
    (21 + lat latency, [RwdsoEqNotSel 0 0]);
    (t_end W8 latency, [CsEq false; RwdsOeEq false; DqOeEq false]);
    (t_end W8 latency + 2, [AckEq true]);
    (t_end W8 latency + 3, [AckEq false]);
    (t_end W8 latency + 4, []) ].
Proof.
  unfold t_seq, dt_seq, t_end, data_ticks. cbn [app to_t_seq].
  repeat (f_equal; try lia).
Qed.

(** *** One event at a time *)

Lemma get_cond_time (trig : bool) (c t : Z) :
  get_cond trig c t = true -> c = t.
Proof.
  unfold get_cond. destruct (Z.eqb_spec t 0) as [-> | Hne].
  - intros H. apply andb_true_iff in H. destruct H as [_ H].
    apply Z.eqb_eq. exact H.
  - apply Z.eqb_eq.
Qed.

Section OneEvent.
Variable w : width.
Variable i : Inputs.
Variable trig : bool.
Variable c : Z.

Local Abbreviation fire :=
  (fun (r : Regs) (e : Z * list stmt) =>
     if get_cond trig c (fst e) then exec_stmts w i (snd e) r else r).

Lemma no_event_fires (events : list (Z * list stmt)) (r : Regs) :
  ~ In c (map fst events) -> fold_left fire events r = r.
Proof.
  revert r. induction events as [|e events IH]; intros r Hnot; cbn [fold_left].
  - reflexivity.
  - destruct (get_cond trig c (fst e)) eqn:He.
    + exfalso. apply Hnot. left. symmetry. apply (get_cond_time trig). exact He.
    + apply IH. intros Hin. apply Hnot. right. exact Hin.
Qed.

(** The times of a schedule being distinct, a tick runs the action of at
    most one event. *)
Lemma one_event_fires (events : list (Z * list stmt)) (r : Regs) :
  NoDup (map fst events) ->
  fold_left fire events r = exec_stmts w i (fired events trig c) r.
Proof.
  unfold fired. revert r.
  induction events as [|e events IH]; intros r Hnd; cbn [fold_left find].
  - reflexivity.
  - inversion Hnd as [|t ts Hnotin Hnd']; subst.
    destruct (get_cond trig c (fst e)) eqn:He.
    + apply no_event_fires.
      rewrite (get_cond_time trig c (fst e) He). exact Hnotin.
    + apply IH. exact Hnd'.
Qed.

End OneEvent.

Lemma t_seq_NoDup (w : width) (latency : Z) :
  1 <= latency -> NoDup (map fst (t_seq w latency)).
Proof.
  intros HL. pose proof (lat_ge_4 latency HL).
  destruct w; [rewrite t_seq_W8 | rewrite t_seq_W16];
    unfold t_end, data_ticks; cbn [map fst];
    repeat (constructor; [cbn [In]; lia|]); constructor.
Qed.

Lemma lastevent_t_seq (w : width) (latency : Z) :
  1 <= latency -> lastevent (t_seq w latency) = t_end w latency + 4.
Proof.
  intros HL. pose proof (lat_ge_4 latency HL).
  destruct w; [rewrite t_seq_W8 | rewrite t_seq_W16];
    unfold lastevent, t_end, data_ticks; cbn [map fst fold_right]; lia.
Qed.


(** *** One tick, by the event that fires *)

Lemma step_fired (w : width) (latency : Z) (i : Inputs) (s : Regs) :
  1 <= latency -> 0 <= counter s <= t_end w latency + 4 ->
  step w latency i s =
  with_counter
    (if counter s =? t_end w latency + 4 then 0
     else if counter s =? 0 then (if trigger i s then 1 else 0)
     else counter s + 1)
    (exec_stmts w i (fired (t_seq w latency) (trigger i s) (counter s))
                (clock_and_shift w i s)).
Proof.
  intros HL Hc. pose proof (lat_ge_4 latency HL) as Hlat.
  unfold step, timeline.
  rewrite one_event_fires by (apply t_seq_NoDup; assumption).
  rewrite counterlogic_spec;
    rewrite lastevent_t_seq by assumption;
    try reflexivity; try assumption.
  unfold t_end, data_ticks. destruct w; lia.
Qed.

(** *** The invariant *)

Ltac counter_cases s :=
  repeat match goal with
    | |- context [counter s =? ?t] =>
        destruct (Z.eqb_spec (counter s) t); try (exfalso; lia)
    end.

Ltac regs_cbn :=
  cbn [exec_stmts fold_left exec_stmt clock_and_shift
       counter clk_phase clk cs ca_active sr dqi dq_oe rwds_oe rwdso ack
       with_counter with_clk_phase with_clk with_cs with_ca_active with_sr
       with_dqi with_dq_oe with_rwds_oe with_rwdso with_ack andb orb negb snd fst].

(** Linear arithmetic with the remainders of the clock phase. *)
Ltac mlia := Z.div_mod_to_equations; lia.

Ltac phase_cases s :=
  let H := fresh "Hph" in
  assert (H : clk_phase s = 0 \/ clk_phase s = 1 \/ clk_phase s = 2 \/ clk_phase s = 3)
    by lia;
  destruct H as [H | [H | [H | H]]]; rewrite H in *; try (exfalso; mlia).

Ltac use_iff :=
  repeat match goal with
    | H : ?P -> true = true |- _ => clear H
    | H : ?P -> false = true |- _ =>
        assert (~ P) by (let HP := fresh in intros HP; apply H in HP; discriminate);
        clear H
    | H : true = true <-> ?P |- _ =>
        assert P by (apply H; reflexivity); clear H
    | H : false = true <-> ?P |- _ =>
        assert (~ P) by (let HP := fresh in intros HP; apply H in HP; discriminate);
        clear H
    | H : true = true -> ?P |- _ => specialize (H eq_refl)
    | H : false = true -> _ |- _ => clear H
    end.

Ltac solve_field :=
  repeat match goal with
    | |- context [?f ?s] =>
        match type of (f s) with
        | bool => is_var s; destruct (f s) eqn:?
        end
    end;
  use_iff;
  repeat split; intros;
  try reflexivity; try discriminate; try mlia; try (exfalso; mlia).

(** Splits a tick by the event that fires, the clock phase and the
    request of the host. *)
Ltac tick_cases w s :=
  destruct w; [rewrite t_seq_W8 | rewrite t_seq_W16];
  unfold fired, get_cond, t_end, data_ticks, lat in *; cbn [find fst snd];
  decide_cmp;
  unfold trigger, clock_and_shift;
  counter_cases s;
  rewrite ?andb_false_r, ?andb_true_r;
  phase_cases s;
  decide_cmp; rewrite ?andb_false_r, ?andb_true_r;
  change (trunc 2 (0 + 1)) with 1; change (trunc 2 (1 + 1)) with 2;
  change (trunc 2 (2 + 1)) with 3; change (trunc 2 (3 + 1)) with 0;
  repeat match goal with |- context [cyc ?x] => destruct (cyc x) end;
  repeat match goal with |- context [stb ?x] => destruct (stb x) end;
  regs_cbn.

Lemma tl_step_inv (w : width) (latency : Z) (i : Inputs) (s : Regs) :
  1 <= latency -> inv w latency s -> inv w latency (step w latency i s).
Proof.
  intros HL [Hc Hp Hal Hcs Hca Hdq Hdqc Hrw Hack Hclk].
  pose proof (lat_ge_4 latency HL) as Hlat.
  rewrite step_fired by assumption.
  tick_cases w s.
  all: constructor; regs_cbn; unfold t_end, data_ticks, lat.
  all: solve_field.
Qed.

Lemma tl_reset_inv (w : width) (latency : Z) :
  1 <= latency -> inv w latency reset.
Proof.
  intros HL. pose proof (lat_ge_4 latency HL).
  constructor; cbn; unfold t_end, data_ticks, lat in *;
    try (destruct w; lia); try discriminate;
    split; intros; try discriminate; destruct w; lia.
Qed.

Lemma tl_reachable_inv (w : width) (latency : Z) (s : Regs) :
  1 <= latency -> reachable w latency s -> inv w latency s.
Proof.
  intros HL Hr. induction Hr as [|i s Hs IH].
  - apply tl_reset_inv. assumption.
  - apply tl_step_inv; assumption.
Qed.

Lemma tl_reachable_run (w : width) (latency : Z) (ins : nat -> Inputs) (n : nat)
    (s : Regs) :
  reachable w latency s -> reachable w latency (run w latency ins n s).
Proof.
  intros Hs. induction n as [|n IH]; cbn [run].
  - exact Hs.
  - apply reach_step. exact IH.
Qed.

Lemma step_counter (w : width) (latency : Z) (i : Inputs) (s : Regs) :
  1 <= latency -> 0 <= counter s <= t_end w latency + 4 ->
  counter (step w latency i s) =
    if counter s =? t_end w latency + 4 then 0
    else if counter s =? 0 then (if trigger i s then 1 else 0)
    else counter s + 1.
Proof.
  intros HL Hc. rewrite step_fired by assumption. reflexivity.
Qed.

Lemma exec_stmts_clk (w : width) (i : Inputs) (a : list stmt) (r : Regs) :
  clk (exec_stmts w i a r) = clk r.
Proof.
  unfold exec_stmts. revert r.
  induction a as [|st a IH]; intros r; cbn [fold_left]; [reflexivity|].
  rewrite IH. destruct st; reflexivity.
Qed.

(** The device clock is set from [cs] on 90 degrees and cleared on 270. *)
Lemma step_clk (w : width) (latency : Z) (i : Inputs) (s : Regs) :
  1 <= latency -> 0 <= counter s <= t_end w latency + 4 ->
  clk (step w latency i s) =
    if clk_phase s =? 1 then cs s
    else if clk_phase s =? 3 then false
    else clk s.
Proof.
  intros HL Hc. rewrite step_fired by assumption.
  cbn [clk with_counter]. rewrite exec_stmts_clk. unfold clock_and_shift.
  destruct (clk_phase s =? 1), (clk_phase s =? 3),
    ((clk_phase s =? 0) || (clk_phase s =? 2)); reflexivity.
Qed.

(** C4: in every state the fixed-timeline controller can be in outside a
    running schedule (counter 0), and in every state the burst controller
    can be in with its FSM in IDLE or in the WAIT chain, chip-select is
    deasserted and neither output-enable is asserted; and the device clock
    changes (fixed timeline), or is enabled (burst controller), only in a
    tick in which chip-select is asserted. *)
Theorem idle_releases_lines :
  forall (w : width) (latency : Z) (sA : Regs)
         (latencyB : Z) (sB : HyperRAMX2.Regs),
    1 <= latency ->
    reachable w latency sA ->
    HyperRAMX2.reachable latencyB sB ->
    (counter sA = 0 ->
     cs sA = false /\ dq_oe sA = false /\ rwds_oe sA = false) /\
    (forall i, clk (step w latency i sA) <> clk sA -> cs sA = true) /\
    (HyperRAMX2.idle (HyperRAMX2.fsm sB) = true ->
     HyperRAMX2.cs sB = false /\ HyperRAMX2.dq_oe sB = false /\
     HyperRAMX2.rwds_oe sB = false) /\
    (HyperRAMX2.device_clock_toggles sB = true -> HyperRAMX2.cs sB = true).
Proof.
  intros w latency sA latencyB sB HL HrA HrB.
  pose proof (lat_ge_4 latency HL) as Hlat.
  destruct (tl_reachable_inv w latency sA HL HrA)
    as [Hc Hp Hal Hcs Hca Hdq Hdqc Hrw Hack Hclk].
  apply reachable_inv in HrB.
  split; [|split; [|split]].
  - intros Hzero. rewrite Hzero in *.
    destruct (cs sA); [destruct Hcs as [Hcs _]; specialize (Hcs eq_refl); lia|].
    destruct (dq_oe sA);
      [specialize (Hdq eq_refl); unfold t_end, data_ticks in Hdq; destruct w; lia|].
    destruct (rwds_oe sA); [specialize (Hrw eq_refl); lia|].
    auto.
  - intros i Hchg. rewrite step_clk in Hchg by assumption.
    destruct (clk_phase sA =? 1).
    + destruct (cs sA); [reflexivity|].
      destruct (clk sA); [apply Hclk; reflexivity | congruence].
    + destruct (clk sA); [apply Hclk; reflexivity|].
      destruct (clk_phase sA =? 3); congruence.
  - unfold HyperRAMX2.inv in HrB. intros Hidle.
    destruct (HyperRAMX2.fsm sB); cbn in Hidle; try discriminate; tauto.
  - unfold HyperRAMX2.device_clock_toggles, HyperRAMX2.phy_clk_enable.
    unfold HyperRAMX2.inv in HrB. intros Hon.
    destruct (HyperRAMX2.fsm sB); try tauto;
      destruct HrB as (? & Hoff & ?); congruence.
Qed.

Lemma idle_releases_lines_witness :
  (counter reset = 0 ->
   cs reset = false /\ dq_oe reset = false /\ rwds_oe reset = false) /\
  (forall i, clk (step W16 6 i reset) <> clk reset -> cs reset = true) /\
  (HyperRAMX2.idle (HyperRAMX2.fsm HyperRAMX2.reset) = true ->
   HyperRAMX2.cs HyperRAMX2.reset = false /\
   HyperRAMX2.dq_oe HyperRAMX2.reset = false /\
   HyperRAMX2.rwds_oe HyperRAMX2.reset = false) /\
  (HyperRAMX2.device_clock_toggles HyperRAMX2.reset = true ->
   HyperRAMX2.cs HyperRAMX2.reset = true).
Proof.
  apply (idle_releases_lines W16 6 reset 6 HyperRAMX2.reset).
  - lia.
  - apply reach_reset.
  - apply HyperRAMX2.reach_reset.
Defined.

(** *** A transaction from start to end *)

Section Transaction.
Variable w : width.
Variable latency : Z.
Variable ins : nat -> Inputs.
Variable s : Regs.
Hypothesis Hlatency : 1 <= latency.
Hypothesis Hreach : reachable w latency s.
Hypothesis Hidle : counter s = 0.
Hypothesis Hstart : trigger (ins 0%nat) s = true.

(** Once started, the counter is the number of ticks since the start. *)
Lemma schedule_counts (k : nat) :
  (1 <= k)%nat -> Z.of_nat k <= t_end w latency + 4 ->
  counter (run w latency ins k s) = Z.of_nat k.
Proof.
  pose proof (lat_ge_4 latency Hlatency) as Hlat.
  assert (Hend : 19 <= t_end w latency)
    by (unfold t_end, data_ticks; destruct w; lia).
  induction k as [|k IH]; intros Hk Hle; [lia|].
  cbn [run].
  destruct (Nat.eq_dec k 0) as [-> | Hpos].
  - cbn [run]. rewrite step_counter by (rewrite ?Hidle; lia).
    rewrite Hidle, Hstart.
    rewrite (proj2 (Z.eqb_neq 0 (t_end w latency + 4))) by lia. reflexivity.
  - specialize (IH ltac:(lia) ltac:(lia)).
    rewrite step_counter by (rewrite ?IH; lia).
    rewrite IH.
    rewrite (proj2 (Z.eqb_neq (Z.of_nat k) (t_end w latency + 4))) by lia.
    rewrite (proj2 (Z.eqb_neq (Z.of_nat k) 0)) by lia. lia.
Qed.

Lemma schedule_ends :
  counter (run w latency ins (Z.to_nat (t_end w latency + 5)) s) = 0.
Proof.
  pose proof (lat_ge_4 latency Hlatency) as Hlat.
  assert (Hend : 19 <= t_end w latency)
    by (unfold t_end, data_ticks; destruct w; lia).
  replace (Z.to_nat (t_end w latency + 5))
    with (S (Z.to_nat (t_end w latency + 4))) by lia.
  cbn [run].
  assert (Hlast : counter (run w latency ins (Z.to_nat (t_end w latency + 4)) s)
                  = t_end w latency + 4)
    by (rewrite schedule_counts; lia).
  rewrite step_counter by (rewrite ?Hlast; lia).
  rewrite Hlast, Z.eqb_refl. reflexivity.
Qed.

Lemma schedule_counter_in_run (k : nat) :
  Z.of_nat k <= t_end w latency + 5 ->
  counter (run w latency ins k s) =
    if Z.of_nat k =? t_end w latency + 5 then 0 else Z.of_nat k.
Proof.
  intros Hle.
  destruct (Z.eqb_spec (Z.of_nat k) (t_end w latency + 5)) as [Heq | Hne].
  - replace k with (Z.to_nat (t_end w latency + 5)) by lia. apply schedule_ends.
  - destruct (Nat.eq_dec k 0) as [-> | Hpos]; [exact Hidle|].
    apply schedule_counts; lia.
Qed.

End Transaction.

(** C5: a transaction of the fixed-timeline controller, started in an
    idle state by a request on the 90 degree phase, runs its schedule
    whatever the host does meanwhile: the counter is the number of ticks
    since the start up to the last event and 0 again one tick later;
    [bus.ack] is asserted in exactly one tick of the transaction (tick
    [t_end + 3]) and not in the next; and while a schedule runs, the next
    counter and acknowledgment do not depend on the inputs, so that a new
    request changes nothing. *)
Theorem one_ack_pulse_per_transaction :
  forall (w : width) (latency : Z) (ins : nat -> Inputs) (s : Regs),
    1 <= latency ->
    reachable w latency s ->
    counter s = 0 ->
    trigger (ins 0%nat) s = true ->
    (forall k : nat, (1 <= k)%nat -> Z.of_nat k <= t_end w latency + 4 ->
       counter (run w latency ins k s) = Z.of_nat k) /\
    counter (run w latency ins (Z.to_nat (t_end w latency + 5)) s) = 0 /\
    (forall k : nat, Z.of_nat k <= t_end w latency + 5 ->
       (ack (run w latency ins k s) = true <-> Z.of_nat k = t_end w latency + 3)) /\
    (forall (s' : Regs) (i i' : Inputs),
       reachable w latency s' -> counter s' <> 0 ->
       counter (step w latency i s') = counter (step w latency i' s') /\
       ack (step w latency i s') = ack (step w latency i' s')).
Proof.
  intros w latency ins s HL Hr Hidle Hstart.
  split; [|split; [|split]].
  - intros k. apply schedule_counts; assumption.
  - apply schedule_ends; assumption.
  - intros k Hk.
    pose proof (tl_reachable_inv w latency _ HL
                  (tl_reachable_run w latency ins k s Hr)) as Hinv.
    rewrite (inv_ack _ _ _ Hinv).
    rewrite (schedule_counter_in_run w latency ins s HL Hr Hidle Hstart k Hk).
    pose proof (lat_ge_4 latency HL) as Hlat.
    assert (Hend : 19 <= t_end w latency)
      by (unfold t_end, data_ticks; destruct w; lia).
    destruct (Z.eqb_spec (Z.of_nat k) (t_end w latency + 5)); lia.
  - intros s' i i' Hr' Hbusy.
    pose proof (tl_reachable_inv w latency s' HL Hr') as Hinv.
    pose proof (inv_counter _ _ _ Hinv) as Hrange.
    assert (Hsame : counter (step w latency i s') = counter (step w latency i' s')).
    { rewrite !step_counter by assumption.
      rewrite (proj2 (Z.eqb_neq (counter s') 0)) by assumption. reflexivity. }
    split; [exact Hsame|].
    pose proof (inv_ack _ _ _ (tl_step_inv w latency i s' HL Hinv)) as Ha.
    pose proof (inv_ack _ _ _ (tl_step_inv w latency i' s' HL Hinv)) as Ha'.
    rewrite <- Hsame in Ha'.
    destruct (ack (step w latency i s')), (ack (step w latency i' s'));
      try reflexivity; exfalso.
    + assert (false = true) by (apply Ha'; apply Ha; reflexivity). discriminate.
    + assert (false = true) by (apply Ha; apply Ha'; reflexivity). discriminate.
Qed.

Lemma one_ack_pulse_per_transaction_witness :
  (forall k : nat, (1 <= k)%nat -> Z.of_nat k <= t_end W16 6 + 4 ->
     counter (run W16 6 (fun _ => write_request) k (step W16 6 write_request reset))
     = Z.of_nat k) /\
  counter (run W16 6 (fun _ => write_request) (Z.to_nat (t_end W16 6 + 5))
               (step W16 6 write_request reset)) = 0 /\
  (forall k : nat, Z.of_nat k <= t_end W16 6 + 5 ->
     (ack (run W16 6 (fun _ => write_request) k (step W16 6 write_request reset))
      = true <-> Z.of_nat k = t_end W16 6 + 3)) /\
  (forall (s' : Regs) (i i' : Inputs),
     reachable W16 6 s' -> counter s' <> 0 ->
     counter (step W16 6 i s') = counter (step W16 6 i' s') /\
     ack (step W16 6 i s') = ack (step W16 6 i' s')).
Proof.
  apply (one_ack_pulse_per_transaction W16 6 (fun _ => write_request)
           (step W16 6 write_request reset)).
  - lia.
  - apply reach_step. apply reach_reset.
  - vm_compute. reflexivity.
  - vm_compute. reflexivity.
Defined.

(** *** The latency phase *)

(** The event after the latency hands the data lines to the host for a
    write and leaves them released for a read. *)
Lemma step_dq_oe_data (w : width) (latency : Z) (i : Inputs) (s : Regs) :
  1 <= latency -> counter s = 15 + lat latency ->
  dq_oe (step w latency i s) = we i.
Proof.
  intros HL Hc. pose proof (lat_ge_4 latency HL) as Hlat.
  rewrite step_fired
    by (try assumption; unfold t_end, data_ticks; destruct w; lia).
  destruct w; [rewrite t_seq_W8 | rewrite t_seq_W16];
    unfold fired, get_cond, t_end, data_ticks, lat in *; cbn [find fst snd];
    decide_cmp; rewrite ?andb_false_r; regs_cbn; reflexivity.
Qed.

(** C6: the third entry of the schedule, the latency, lasts
    [2 * latency * 4 - 4 = latency * 8 - 4] ticks and its action releases
    the data lines; in a transaction the data lines are driven up to tick
    15, released in each of the [latency * 8 - 4] ticks from 16 on, and
    in the tick after those driven again exactly for a write. *)
Theorem latency_phase_length :
  forall (w : width) (latency : Z),
    option_map fst (nth_error (dt_seq w latency) 2) = Some (2 * latency * 4 - 4) /\
    option_map fst (nth_error (dt_seq w latency) 2) = Some (latency * 8 - 4) /\
    option_map snd (nth_error (dt_seq w latency) 2)
      = Some [DqOeEq false; CaActiveEq false] /\
    (forall (ins : nat -> Inputs) (s : Regs),
       1 <= latency ->
       reachable w latency s ->
       counter s = 0 ->
       trigger (ins 0%nat) s = true ->
       dq_oe (run w latency ins 15 s) = true /\
       (forall k : nat,
          16 <= Z.of_nat k <= 15 + (latency * 8 - 4) ->
          dq_oe (run w latency ins k s) = false) /\
       dq_oe (run w latency ins (Z.to_nat (16 + (latency * 8 - 4))) s)
         = we (ins (Z.to_nat (15 + (latency * 8 - 4))))).
Proof.
  intros w latency. split; [|split; [|split]].
  - destruct w; unfold dt_seq; cbn [app nth_error option_map fst];
      unfold lat; f_equal; lia.
  - destruct w; reflexivity.
  - destruct w; reflexivity.
  - intros ins s HL Hr Hidle Hstart.
    pose proof (lat_ge_4 latency HL) as Hlat. unfold lat in Hlat.
    assert (Hend : t_end w latency = 15 + (latency * 8 - 4) + data_ticks w)
      by reflexivity.
    assert (Hdata : 4 <= data_ticks w) by (destruct w; cbn; lia).
    assert (Hat : forall k : nat, (1 <= k)%nat ->
              Z.of_nat k <= t_end w latency + 4 ->
              counter (run w latency ins k s) = Z.of_nat k)
      by (intros k; apply schedule_counts; assumption).
    assert (Hinv : forall k : nat, inv w latency (run w latency ins k s))
      by (intros k; apply tl_reachable_inv; [assumption|];
          apply tl_reachable_run; assumption).
    split; [|split].
    + apply (inv_dq_oe_cmd _ _ _ (Hinv 15%nat)). rewrite Hat; lia.
    + intros k Hk. pose proof (inv_dq_oe _ _ _ (Hinv k)) as Hdq.
      rewrite Hat in Hdq by lia. unfold lat in Hdq.
      destruct (dq_oe (run w latency ins k s)); [|reflexivity].
      specialize (Hdq eq_refl). lia.
    + replace (Z.to_nat (16 + (latency * 8 - 4)))
        with (S (Z.to_nat (15 + (latency * 8 - 4)))) by lia.
      cbn [run]. apply step_dq_oe_data; [assumption|].
      rewrite Hat by lia. unfold lat. lia.
Qed.

Lemma latency_phase_length_witness :
  option_map fst (nth_error (dt_seq W16 6) 2) = Some (2 * 6 * 4 - 4) /\
  option_map fst (nth_error (dt_seq W16 6) 2) = Some (6 * 8 - 4) /\
  option_map snd (nth_error (dt_seq W16 6) 2)
    = Some [DqOeEq false; CaActiveEq false] /\
  dq_oe (run W16 6 (fun _ => write_request) 15 (step W16 6 write_request reset))
    = true /\
  (forall k : nat,
     16 <= Z.of_nat k <= 15 + (6 * 8 - 4) ->
     dq_oe (run W16 6 (fun _ => write_request) k (step W16 6 write_request reset))
       = false) /\
  dq_oe (run W16 6 (fun _ => write_request) (Z.to_nat (16 + (6 * 8 - 4)))
             (step W16 6 write_request reset))
    = we write_request.
Proof.
  destruct (latency_phase_length W16 6) as (H1 & H2 & H3 & Hrun).
  split; [exact H1|]. split; [exact H2|]. split; [exact H3|].
  apply (Hrun (fun _ => write_request) (step W16 6 write_request reset)).
  - lia.
  - apply reach_step. apply reach_reset.
  - vm_compute. reflexivity.
  - vm_compute. reflexivity.
Defined.

(** *** The shift register *)

Lemma testbit_cat (k lo hi n : Z) :
  0 <= k -> 0 <= n ->
  Z.testbit (cat k lo hi) n =
    if n <? k then Z.testbit lo n else Z.testbit hi (n - k).
Proof.
  intros Hk Hn. unfold cat.
  rewrite Z.lor_spec, Z.land_spec, testbit_ones_inrange by lia.
  destruct (Z.ltb_spec n k).
  - rewrite Z.shiftl_spec_low by lia. now rewrite andb_true_r, orb_false_r.
  - rewrite Z.shiftl_spec by lia. now rewrite andb_false_r.
Qed.

(** Unless the sequencer loads [sr] in this tick (the command at time 3,
    the write data after the latency), [sr] takes the shifted value on 0
    and 180 degrees and keeps its value otherwise. *)
Lemma step_sr_shift (w : width) (latency : Z) (i : Inputs) (s : Regs) :
  1 <= latency -> 0 <= counter s <= t_end w latency + 4 ->
  counter s <> 3 -> counter s <> 15 + lat latency ->
  sr (step w latency i s) =
    if (clk_phase s =? 0) || (clk_phase s =? 2) then shift w s else sr s.
Proof.
  intros HL Hc H3 Hdata. pose proof (lat_ge_4 latency HL) as Hlat.
  rewrite step_fired by assumption.
  destruct w; [rewrite t_seq_W8 | rewrite t_seq_W16];
    unfold fired, get_cond, t_end, data_ticks, lat in *; cbn [find fst snd];
    decide_cmp; counter_cases s; rewrite ?andb_false_r, ?andb_true_r;
    repeat match goal with |- context [trigger ?x ?y] => destruct (trigger x y) end;
    unfold clock_and_shift;
    destruct ((clk_phase s =? 0) || (clk_phase s =? 2)),
      (clk_phase s =? 1), (clk_phase s =? 3); reflexivity.
Qed.

(** C10: while [ca_active] is set, the data lines carry the top 8 bits of
    [sr] and a shift moves [sr] up by 8 bits and takes in the low 8 bits
    of the sample, for an 8-bit and for a 16-bit bus alike; while it is
    clear, the lines carry the top [dw] bits and a shift moves [sr] up by
    [dw] bits and takes in [dw] bits. *)
Theorem command_phase_shifts_bytes :
  forall (w : width) (latency : Z) (i : Inputs) (s : Regs),
    1 <= latency ->
    reachable w latency s ->
    (ca_active s = true ->
       (forall n, 0 <= n ->
          Z.testbit (dq_o w s) n =
            if n <? 8 then Z.testbit (sr s) (n + 40) else false) /\
       (clk_phase s = 0 \/ clk_phase s = 2 ->
        forall n, 0 <= n ->
          Z.testbit (sr (step w latency i s)) n =
            if n <? 8 then Z.testbit (dqi s) n
            else if n <? 48 then Z.testbit (sr s) (n - 8)
            else false)) /\
    (ca_active s = false ->
       (forall n, 0 <= n ->
          Z.testbit (dq_o w s) n =
            if n <? dw_of w then Z.testbit (sr s) (n + (48 - dw_of w))
            else false) /\
       (clk_phase s = 0 \/ clk_phase s = 2 ->
        counter s <> 3 -> counter s <> 15 + lat latency ->
        forall n, 0 <= n ->
          Z.testbit (sr (step w latency i s)) n =
            if n <? dw_of w then Z.testbit (dqi s) n
            else if n <? 48 then Z.testbit (sr s) (n - dw_of w)
            else false)).
Proof.
  intros w latency i s HL Hr.
  pose proof (lat_ge_4 latency HL) as Hlat.
  pose proof (tl_reachable_inv w latency s HL Hr) as Hinv.
  pose proof (inv_counter _ _ _ Hinv) as Hc.
  assert (Hdw : dw_of w = 8 \/ dw_of w = 16) by (destruct w; cbn; lia).
  assert (Hphase : clk_phase s = 0 \/ clk_phase s = 2 ->
                   (clk_phase s =? 0) || (clk_phase s =? 2) = true)
    by (intros [-> | ->]; reflexivity).
  split; intros Hca.
  - pose proof (proj1 (inv_ca_active _ _ _ Hinv) Hca) as Hcmd.
    split.
    + intros n Hn. unfold dq_o. rewrite Hca, testbit_slice by lia.
      replace (48 - (48 - 8)) with 8 by lia.
      replace (48 - 8) with 40 by lia.
      destruct (n <? 8); [apply andb_true_r | apply andb_false_r].
    + intros Hph n Hn. rewrite step_sr_shift by (try assumption; lia).
      rewrite (Hphase Hph). unfold shift. rewrite Hca.
      rewrite testbit_cat by lia.
      destruct (Z.ltb_spec n 8).
      * rewrite testbit_slice by lia.
        rewrite (proj2 (Z.ltb_lt n (8 - 0))) by lia.
        rewrite Z.add_0_r. apply andb_true_r.
      * rewrite testbit_slice by lia.
        replace (n - 8 + 0) with (n - 8) by lia.
        destruct (Z.ltb_spec n 48).
        -- rewrite (proj2 (Z.ltb_lt (n - 8) (48 - 8 - 0))) by lia. apply andb_true_r.
        -- rewrite (proj2 (Z.ltb_ge (n - 8) (48 - 8 - 0))) by lia. apply andb_false_r.
  - split.
    + intros n Hn. unfold dq_o. rewrite Hca, testbit_slice by lia.
      replace (48 - (48 - dw_of w)) with (dw_of w) by lia.
      destruct (n <? dw_of w); [apply andb_true_r | apply andb_false_r].
    + intros Hph H3 Hdata n Hn. rewrite step_sr_shift by assumption.
      rewrite (Hphase Hph). unfold shift. rewrite Hca.
      rewrite testbit_cat by lia.
      destruct (Z.ltb_spec n (dw_of w)); [reflexivity|].
      rewrite testbit_slice by lia.
      replace (n - dw_of w + 0) with (n - dw_of w) by lia.
      destruct (Z.ltb_spec n 48).
      * rewrite (proj2 (Z.ltb_lt (n - dw_of w) (48 - dw_of w - 0))) by lia.
        apply andb_true_r.
      * rewrite (proj2 (Z.ltb_ge (n - dw_of w) (48 - dw_of w - 0))) by lia.
        apply andb_false_r.
Qed.

Lemma command_phase_shifts_bytes_witness :
  let s := run W16 6 (fun _ => write_request) 5 (step W16 6 write_request reset) in
  (ca_active s = true ->
     (forall n, 0 <= n ->
        Z.testbit (dq_o W16 s) n =
          if n <? 8 then Z.testbit (sr s) (n + 40) else false) /\
     (clk_phase s = 0 \/ clk_phase s = 2 ->
      forall n, 0 <= n ->
        Z.testbit (sr (step W16 6 write_request s)) n =
          if n <? 8 then Z.testbit (dqi s) n
          else if n <? 48 then Z.testbit (sr s) (n - 8)
          else false)) /\
  (ca_active s = false ->
     (forall n, 0 <= n ->
        Z.testbit (dq_o W16 s) n =
          if n <? dw_of W16 then Z.testbit (sr s) (n + (48 - dw_of W16))
          else false) /\
     (clk_phase s = 0 \/ clk_phase s = 2 ->
      counter s <> 3 -> counter s <> 15 + lat 6 ->
      forall n, 0 <= n ->
        Z.testbit (sr (step W16 6 write_request s)) n =
          if n <? dw_of W16 then Z.testbit (dqi s) n
          else if n <? 48 then Z.testbit (sr s) (n - dw_of W16)
          else false)).
Proof.
  intros s.
  apply (command_phase_shifts_bytes W16 6 write_request s).
  - lia.
  - apply tl_reachable_run. apply reach_step. apply reach_reset.
Defined.

(** *** The schedule at the default latency *)

(** The end-to-end scenario of a 16-bit write to address 0: the command
    word is [0x200000000000]; the request seen on the 90 degree phase
    starts the schedule, chip-select is asserted from tick 4 to tick 63,
    and the acknowledgment is a single pulse in tick 66. *)
Example write16_scenario :
  ca W16 true 0 = 2 ^ 45 /\
  t_end W16 6 = 63 /\
  let s := step W16 6 write_request reset in
  filter (fun k => cs (run W16 6 (fun _ => write_request) k s)) (seq 0 70)
    = seq 4 60 /\
  filter (fun k => ack (run W16 6 (fun _ => write_request) k s)) (seq 0 70)
    = [66%nat].
Proof. vm_compute. repeat split. Qed.

(** *** Starting a transaction *)

Lemma exec_stmts_clk_phase (w : width) (i : Inputs) (a : list stmt) (r : Regs) :
  clk_phase (exec_stmts w i a r) = clk_phase r.
Proof.
  unfold exec_stmts. revert r.
  induction a as [|st a IH]; intros r; cbn [fold_left]; [reflexivity|].
  rewrite IH. destruct st; reflexivity.
Qed.

(** The phase counter runs freely, modulo 4. *)
Lemma step_clk_phase (w : width) (latency : Z) (i : Inputs) (s : Regs) :
  1 <= latency -> 0 <= counter s <= t_end w latency + 4 ->
  clk_phase (step w latency i s) = (clk_phase s + 1) mod 4.
Proof.
  intros HL Hc. rewrite step_fired by assumption.
  cbn [clk_phase with_counter]. rewrite exec_stmts_clk_phase.
  unfold clock_and_shift.
  assert (Htr : trunc 2 (clk_phase s + 1) = (clk_phase s + 1) mod 4)
    by (unfold trunc; rewrite Z.land_ones by lia; reflexivity).
  destruct (clk_phase s =? 1), (clk_phase s =? 3),
    ((clk_phase s =? 0) || (clk_phase s =? 2)); exact Htr.
Qed.

Section Start.
Variable w : width.
Variable latency : Z.
Variable ins : nat -> Inputs.
Variable s : Regs.
Hypothesis Hlatency : 1 <= latency.
Hypothesis Hreach : reachable w latency s.
Hypothesis Hidle : counter s = 0.

(** An idle controller stays idle, the phase advancing, as long as the
    phase is not 90 degrees. *)
Lemma idle_until_phase_1 (k : nat) :
  Z.of_nat k <= (1 - clk_phase s) mod 4 ->
  counter (run w latency ins k s) = 0 /\
  clk_phase (run w latency ins k s) = (clk_phase s + Z.of_nat k) mod 4.
Proof.
  pose proof (lat_ge_4 latency Hlatency) as Hlat.
  assert (Hend : 19 <= t_end w latency)
    by (unfold t_end, data_ticks; destruct w; lia).
  pose proof (inv_phase _ _ _ (tl_reachable_inv w latency s Hlatency Hreach))
    as Hp.
  induction k as [|k IH]; intros Hk.
  - cbn [run]. split; [exact Hidle|]. rewrite Z.add_0_r, Z.mod_small; lia.
  - destruct IH as (Hc & Hph); [lia|]. cbn [run].
    rewrite step_counter, step_clk_phase by (rewrite ?Hc; lia).
    rewrite Hc, Hph. split; [|mlia].
    rewrite (proj2 (Z.eqb_neq 0 (t_end w latency + 4))) by lia.
    rewrite Z.eqb_refl. unfold trigger. rewrite Hph.
    rewrite (proj2 (Z.eqb_neq ((clk_phase s + Z.of_nat k) mod 4) 1)) by mlia.
    rewrite andb_false_r. reflexivity.
Qed.

End Start.

(** X10: an idle fixed-timeline controller takes up a request only on the
    90 degree phase of the clock it derives: with the request held, the
    counter stays 0 for [d = (1 - clk_phase) mod 4] ticks, at most 3, and
    the schedule starts in the tick after. *)
Theorem request_starts_on_phase_1 :
  forall (w : width) (latency : Z) (ins : nat -> Inputs) (s : Regs),
    1 <= latency ->
    reachable w latency s ->
    counter s = 0 ->
    let d := Z.to_nat ((1 - clk_phase s) mod 4) in
    (forall k, (k <= d)%nat -> cyc (ins k) = true /\ stb (ins k) = true) ->
    (d <= 3)%nat /\
    (forall k, (k <= d)%nat -> counter (run w latency ins k s) = 0) /\
    clk_phase (run w latency ins d s) = 1 /\
    counter (run w latency ins (S d) s) = 1.
Proof.
  intros w latency ins s HL Hr Hidle d Hreq.
  pose proof (lat_ge_4 latency HL) as Hlat.
  assert (Hend : 19 <= t_end w latency)
    by (unfold t_end, data_ticks; destruct w; lia).
  pose proof (inv_phase _ _ _ (tl_reachable_inv w latency s HL Hr)) as Hp.
  assert (Hd : Z.of_nat d = (1 - clk_phase s) mod 4) by (subst d; mlia).
  destruct (idle_until_phase_1 w latency ins s HL Hr Hidle d ltac:(lia))
    as (Hc & Hph).
  assert (Hph1 : clk_phase (run w latency ins d s) = 1) by (rewrite Hph; mlia).
  split; [mlia|]. split; [|split].
  - intros k Hk. apply idle_until_phase_1; try assumption. lia.
  - exact Hph1.
  - cbn [run]. rewrite step_counter by (rewrite ?Hc; lia).
    rewrite Hc. rewrite (proj2 (Z.eqb_neq 0 (t_end w latency + 4))) by lia.
    rewrite Z.eqb_refl. unfold trigger. rewrite Hph1.
    destruct (Hreq d ltac:(lia)) as (-> & ->). reflexivity.
Qed.

Lemma request_starts_on_phase_1_witness :
  let quiet := {| cyc := false; stb := false; we := false; adr := 0;
                  dat_w := 0; sel := 0; dq_i := 0 |} in
  let s := run W8 6 (fun _ => quiet) 2 reset in
  let d := Z.to_nat ((1 - clk_phase s) mod 4) in
  (d <= 3)%nat /\
  (forall k, (k <= d)%nat -> counter (run W8 6 (fun _ => write_request) k s) = 0) /\
  clk_phase (run W8 6 (fun _ => write_request) d s) = 1 /\
  counter (run W8 6 (fun _ => write_request) (S d) s) = 1.
Proof.
  intros quiet s d.
  apply (request_starts_on_phase_1 W8 6 (fun _ => write_request) s).
  - lia.
  - apply tl_reachable_run. apply reach_reset.
  - vm_compute. reflexivity.
  - intros k Hk. split; reflexivity.
Defined.

(** *** The device clock *)

(** In every state the controller can be in, the clock is high exactly on
    the phases after 90 and 180 degrees of the ticks 5 to [t_end - 1] of a
    schedule. *)
Lemma clk_high_iff (w : width) (latency : Z) (s : Regs) :
  1 <= latency -> reachable w latency s ->
  (clk s = true <->
   5 <= counter s <= t_end w latency - 1 /\
   (clk_phase s = 2 \/ clk_phase s = 3)).
Proof.
  intros HL Hr. pose proof (lat_ge_4 latency HL) as Hlat.
  induction Hr as [|i s Hr IH].
  - cbn. split; [discriminate | lia].
  - destruct (tl_reachable_inv w latency s HL Hr)
      as [Hc Hp Hal Hcs Hca Hdq Hdqc Hrw Hack Hclk].
    rewrite step_clk, step_counter, step_clk_phase by assumption.
    unfold trigger, t_end, data_ticks, lat in *.
    destruct w; phase_cases s; decide_cmp; counter_cases s;
      rewrite ?andb_false_r, ?andb_true_r;
      change ((0 + 1) mod 4) with 1; change ((1 + 1) mod 4) with 2;
      change ((2 + 1) mod 4) with 3; change ((3 + 1) mod 4) with 0;
      repeat match goal with |- context [cyc ?x] => destruct (cyc x) end;
      repeat match goal with |- context [stb ?x] => destruct (stb x) end;
      cbn [andb];
      solve_field.
Qed.

(** X11: in a transaction the device clock is high exactly in the ticks
    [k] with [5 <= k <= t_end - 1] and [k mod 4] equal to 1 or 2 (pulses
    of two ticks every four ticks, the first rising edge in tick 5), and
    chip-select is asserted exactly in the ticks 4 to [t_end]: every clock
    pulse lies inside the chip-select window. *)
Theorem device_clock_waveform :
  forall (w : width) (latency : Z) (ins : nat -> Inputs) (s : Regs),
    1 <= latency ->
    reachable w latency s ->
    counter s = 0 ->
    trigger (ins 0%nat) s = true ->
    forall k : nat, Z.of_nat k <= t_end w latency + 4 ->
      (clk (run w latency ins k s) = true <->
       5 <= Z.of_nat k <= t_end w latency - 1 /\
       (Z.of_nat k mod 4 = 1 \/ Z.of_nat k mod 4 = 2)) /\
      (cs (run w latency ins k s) = true <->
       4 <= Z.of_nat k <= t_end w latency).
Proof.
  intros w latency ins s HL Hr Hidle Hstart k Hk.
  pose proof (tl_reachable_run w latency ins k s Hr) as Hrk.
  pose proof (tl_reachable_inv w latency _ HL Hrk) as Hinv.
  pose proof (clk_high_iff w latency _ HL Hrk) as Hclk.
  pose proof (inv_cs _ _ _ Hinv) as Hcs.
  pose proof (inv_aligned _ _ _ Hinv) as Hal.
  assert (Hcount : counter (run w latency ins k s) = Z.of_nat k).
  { destruct (Nat.eq_dec k 0) as [-> | Hpos]; [exact Hidle|].
    apply schedule_counts; try assumption. lia. }
  rewrite Hcount in *.
  split; [|exact Hcs].
  rewrite Hclk. split.
  - intros (Hwin & Hph). split; [exact Hwin|].
    rewrite Hal in Hph by lia. mlia.
  - intros (Hwin & Hph). split; [exact Hwin|].
    rewrite Hal by lia. mlia.
Qed.

Lemma device_clock_waveform_witness :
  (clk (run W16 6 (fun _ => write_request) 5 (step W16 6 write_request reset))
   = true <->
   5 <= Z.of_nat 5 <= t_end W16 6 - 1 /\
   (Z.of_nat 5 mod 4 = 1 \/ Z.of_nat 5 mod 4 = 2)) /\
  (cs (run W16 6 (fun _ => write_request) 5 (step W16 6 write_request reset))
   = true <->
   4 <= Z.of_nat 5 <= t_end W16 6).
Proof.
  apply (device_clock_waveform W16 6 (fun _ => write_request)
           (step W16 6 write_request reset)).
  - lia.
  - apply reach_step. apply reach_reset.
  - vm_compute. reflexivity.
  - vm_compute. reflexivity.
  - unfold t_end, lat, data_ticks. lia.
Defined.

(** *** The command on the data lines *)

(** The event at time 3 loads the command word. *)
Lemma step_sr_load_ca (w : width) (latency : Z) (i : Inputs) (s : Regs) :
  1 <= latency -> counter s = 3 ->
  sr (step w latency i s) = ca w (we i) (adr i).
Proof.
  intros HL Hc. pose proof (lat_ge_4 latency HL) as Hlat.
  rewrite step_fired
    by (try assumption; unfold t_end, data_ticks; destruct w; lia).
  destruct w; [rewrite t_seq_W8 | rewrite t_seq_W16];
    unfold fired, get_cond, t_end, data_ticks, lat in *; cbn [find fst snd];
    decide_cmp; rewrite ?andb_false_r; regs_cbn; reflexivity.
Qed.

Section CommandPhase.
Variable w : width.
Variable latency : Z.
Variable ins : nat -> Inputs.
Variable s : Regs.
Hypothesis Hlatency : 1 <= latency.
Hypothesis Hreach : reachable w latency s.
Hypothesis Hidle : counter s = 0.
Hypothesis Hstart : trigger (ins 0%nat) s = true.

Local Abbreviation at_tick := (fun k : nat => run w latency ins k s).

Lemma tick_facts (k : nat) :
  (1 <= k)%nat -> Z.of_nat k <= t_end w latency + 4 ->
  inv w latency (at_tick k) /\
  counter (at_tick k) = Z.of_nat k /\
  clk_phase (at_tick k) = (Z.of_nat k + 1) mod 4.
Proof.
  intros Hk Hle.
  pose proof (tl_reachable_inv w latency _ Hlatency
                (tl_reachable_run w latency ins k s Hreach)) as Hinv.
  pose proof (schedule_counts w latency ins s Hlatency Hreach Hidle Hstart k
                Hk Hle) as Hc.
  split; [exact Hinv|]. split; [exact Hc|].
  rewrite (inv_aligned _ _ _ Hinv) by lia. rewrite Hc. reflexivity.
Qed.

(** Half the ticks since tick 4: the number of bytes shifted out. *)
Lemma sr_in_command (k : nat) :
  4 <= Z.of_nat k <= 15 ->
  forall n, 8 * ((Z.of_nat k - 4) / 2) <= n < 48 ->
    Z.testbit (sr (at_tick k)) n =
    Z.testbit (ca w (we (ins 3%nat)) (adr (ins 3%nat)))
              (n - 8 * ((Z.of_nat k - 4) / 2)).
Proof.
  pose proof (lat_ge_4 latency Hlatency) as Hlat.
  assert (Hend : 19 <= t_end w latency)
    by (unfold t_end, data_ticks; destruct w; lia).
  induction k as [|k IH]; intros Hk n Hn; [lia|].
  destruct (Z.eq_dec (Z.of_nat k) 3) as [H3 | Hn3].
  - cbn [run]. rewrite step_sr_load_ca; try assumption.
    + replace k with 3%nat by lia. f_equal.
      replace (Z.of_nat (S k)) with 4 by lia. cbn. lia.
    + destruct (tick_facts k ltac:(lia) ltac:(lia)) as (_ & Hc & _).
      rewrite Hc. exact H3.
  - destruct (tick_facts k ltac:(lia) ltac:(lia)) as (Hinv & Hc & Hph).
    pose proof (proj2 (inv_ca_active _ _ _ Hinv)) as Hca.
    rewrite Hc in Hca. specialize (Hca ltac:(lia)).
    cbn [run]. rewrite step_sr_shift; try assumption; rewrite ?Hc; try lia.
    rewrite Hph. unfold shift. rewrite Hca.
    assert (Hpar : Z.of_nat k mod 2 = 1 \/ Z.of_nat k mod 2 = 0) by mlia.
    destruct Hpar as [Hodd | Heven].
    + replace (((Z.of_nat k + 1) mod 4 =? 0) || ((Z.of_nat k + 1) mod 4 =? 2))
        with true
        by (symmetry; apply orb_true_iff;
            rewrite !Z.eqb_eq; mlia).
      rewrite testbit_cat by mlia.
      rewrite (proj2 (Z.ltb_ge n 8)) by mlia.
      rewrite testbit_slice by mlia.
      rewrite (proj2 (Z.ltb_lt (n - 8) (48 - 8 - 0))) by mlia.
      rewrite andb_true_r, Z.add_0_r.
      rewrite IH by mlia. f_equal. mlia.
    + replace (((Z.of_nat k + 1) mod 4 =? 0) || ((Z.of_nat k + 1) mod 4 =? 2))
        with false
        by (symmetry; apply orb_false_iff;
            rewrite !Z.eqb_neq; mlia).
      rewrite IH by mlia. f_equal. mlia.
Qed.

End CommandPhase.

(** X12: in a transaction the six bytes of the command word, built from
    [we] and [adr] of tick 3, are on the data lines most significant byte
    first, byte [j] in the two ticks [4 + 2j] and [5 + 2j], with the data
    output-enable and chip-select asserted. *)
Theorem command_bytes_on_dq :
  forall (w : width) (latency : Z) (ins : nat -> Inputs) (s : Regs),
    1 <= latency ->
    reachable w latency s ->
    counter s = 0 ->
    trigger (ins 0%nat) s = true ->
    forall (j : Z) (k : nat),
      0 <= j <= 5 ->
      Z.of_nat k = 4 + 2 * j \/ Z.of_nat k = 5 + 2 * j ->
      dq_o w (run w latency ins k s) =
        slice (ca w (we (ins 3%nat)) (adr (ins 3%nat))) (40 - 8 * j) (48 - 8 * j) /\
      dq_oe (run w latency ins k s) = true /\
      cs (run w latency ins k s) = true.
Proof.
  intros w latency ins s HL Hr Hidle Hstart j k Hj Hk.
  pose proof (lat_ge_4 latency HL) as Hlat.
  assert (Hend : 19 <= t_end w latency)
    by (unfold t_end, data_ticks; destruct w; lia).
  destruct (tick_facts w latency ins s HL Hr Hidle Hstart k ltac:(lia) ltac:(lia))
    as (Hinv & Hc & _).
  pose proof (proj2 (inv_ca_active _ _ _ Hinv)) as Hca.
  pose proof (proj2 (inv_cs _ _ _ Hinv)) as Hcs.
  pose proof (inv_dq_oe_cmd _ _ _ Hinv) as Hoe.
  rewrite Hc in Hca, Hcs, Hoe.
  split; [|split; [apply Hoe; lia | apply Hcs; lia]].
  unfold dq_o. rewrite Hca by lia.
  apply Z.bits_inj'; intros n Hn.
  rewrite !testbit_slice by lia.
  replace (48 - 8 * j - (40 - 8 * j)) with 8 by lia.
  replace (48 - (48 - 8)) with 8 by lia.
  destruct (Z.ltb_spec n 8); [|now rewrite !andb_false_r].
  rewrite !andb_true_r.
  rewrite (sr_in_command w latency ins s HL Hr Hidle Hstart k) by mlia.
  f_equal. mlia.
Qed.

Lemma command_bytes_on_dq_witness :
  dq_o W16 (run W16 6 (fun _ => write_request) 8 (step W16 6 write_request reset))
    = slice (ca W16 (we write_request) (adr write_request))
            (40 - 8 * 2) (48 - 8 * 2) /\
  dq_oe (run W16 6 (fun _ => write_request) 8 (step W16 6 write_request reset))
    = true /\
  cs (run W16 6 (fun _ => write_request) 8 (step W16 6 write_request reset))
    = true.
Proof.
  apply (command_bytes_on_dq W16 6 (fun _ => write_request)
           (step W16 6 write_request reset)).
  - lia.
  - apply reach_step. apply reach_reset.
  - vm_compute. reflexivity.
  - vm_compute. reflexivity.
  - lia.
  - left. reflexivity.
Defined.

(** *** The data phase of a write *)

(** The event after the latency loads the write data above 16 zero bits. *)
Lemma step_sr_load_data (w : width) (latency : Z) (i : Inputs) (s : Regs) :
  1 <= latency -> counter s = 15 + lat latency ->
  forall n, 0 <= n < 48 ->
    Z.testbit (sr (step w latency i s)) n =
      if n <? 16 then false else Z.testbit (dat_w i) (n - 16).
Proof.
  intros HL Hc n Hn. pose proof (lat_ge_4 latency HL) as Hlat.
  rewrite step_fired
    by (try assumption; unfold t_end, data_ticks; destruct w; lia).
  destruct w; [rewrite t_seq_W8 | rewrite t_seq_W16];
    unfold fired, get_cond, t_end, data_ticks, lat in *; cbn [find fst snd];
    decide_cmp; rewrite ?andb_false_r; regs_cbn;
    rewrite !testbit_set_slice by lia; rewrite Z.bits_0;
    destruct (Z.ltb_spec n 16); decide_cmp; reflexivity.
Qed.

Lemma step_rwds_oe_data (w : width) (latency : Z) (i : Inputs) (s : Regs) :
  1 <= latency -> counter s = 15 + lat latency ->
  rwds_oe (step w latency i s) = we i.
Proof.
  intros HL Hc. pose proof (lat_ge_4 latency HL) as Hlat.
  rewrite step_fired
    by (try assumption; unfold t_end, data_ticks; destruct w; lia).
  destruct w; [rewrite t_seq_W8 | rewrite t_seq_W16];
    unfold fired, get_cond, t_end, data_ticks, lat in *; cbn [find fst snd];
    decide_cmp; rewrite ?andb_false_r; regs_cbn; reflexivity.
Qed.

(** Between the data event and the release, no event touches the
    output-enables. *)
Lemma step_oe_kept (w : width) (latency : Z) (i : Inputs) (s : Regs) :
  1 <= latency ->
  15 + lat latency < counter s < t_end w latency ->
  dq_oe (step w latency i s) = dq_oe s /\
  rwds_oe (step w latency i s) = rwds_oe s.
Proof.
  intros HL Hc. pose proof (lat_ge_4 latency HL) as Hlat.
  rewrite step_fired by (try assumption; lia).
  destruct w; [rewrite t_seq_W8 | rewrite t_seq_W16];
    unfold fired, get_cond, t_end, data_ticks, lat in *; cbn [find fst snd];
    decide_cmp; counter_cases s; rewrite ?andb_false_r, ?andb_true_r;
    unfold clock_and_shift;
    destruct ((clk_phase s =? 0) || (clk_phase s =? 2)),
      (clk_phase s =? 1), (clk_phase s =? 3); split; reflexivity.
Qed.

Section DataPhase.
Variable w : width.
Variable latency : Z.
Variable ins : nat -> Inputs.
Variable s : Regs.
Hypothesis Hlatency : 1 <= latency.
Hypothesis Hreach : reachable w latency s.
Hypothesis Hidle : counter s = 0.
Hypothesis Hstart : trigger (ins 0%nat) s = true.

Local Abbreviation at_tick := (fun k : nat => run w latency ins k s).
Local Abbreviation load := (Z.to_nat (15 + lat latency)).

Lemma oe_in_data_phase (k : nat) :
  15 + lat latency < Z.of_nat k <= t_end w latency ->
  dq_oe (at_tick k) = we (ins load) /\ rwds_oe (at_tick k) = we (ins load).
Proof.
  pose proof (lat_ge_4 latency Hlatency) as Hlat.
  assert (Hend : t_end w latency = 15 + lat latency + data_ticks w)
    by reflexivity.
  assert (Hdata : 4 <= data_ticks w) by (destruct w; cbn; lia).
  induction k as [|k IH]; intros Hk; [lia|].
  destruct (tick_facts w latency ins s Hlatency Hreach Hidle Hstart k
              ltac:(lia) ltac:(lia)) as (_ & Hc & _).
  cbn [run].
  destruct (Z.eq_dec (Z.of_nat k) (15 + lat latency)) as [Hload | Hlater].
  - replace load with k by lia.
    split; [apply step_dq_oe_data | apply step_rwds_oe_data];
      try assumption; rewrite Hc; exact Hload.
  - destruct (step_oe_kept w latency (ins k) (run w latency ins k s) Hlatency)
      as (Hdq & Hrw); [rewrite Hc; lia|].
    rewrite Hdq, Hrw. apply IH. lia.
Qed.

(** After the load, every second tick shifts [dw] more bits out. *)
Lemma sr_in_data_phase (k : nat) :
  15 + lat latency < Z.of_nat k <= t_end w latency ->
  forall n,
    16 + dw_of w * ((Z.of_nat k - (16 + lat latency)) / 2) <= n < 48 ->
    Z.testbit (sr (at_tick k)) n =
    Z.testbit (dat_w (ins load))
              (n - 16 - dw_of w * ((Z.of_nat k - (16 + lat latency)) / 2)).
Proof.
  pose proof (lat_ge_4 latency Hlatency) as Hlat.
  assert (Hend : t_end w latency = 15 + lat latency + data_ticks w)
    by reflexivity.
  assert (Hdata : 4 <= data_ticks w) by (destruct w; cbn; lia).
  induction k as [|k IH]; intros Hk n Hn; [lia|].
  destruct (tick_facts w latency ins s Hlatency Hreach Hidle Hstart k
              ltac:(lia) ltac:(lia)) as (Hinv & Hc & Hph).
  cbn [run].
  destruct (Z.eq_dec (Z.of_nat k) (15 + lat latency)) as [Hload | Hlater].
  - rewrite step_sr_load_data; try assumption;
      [|rewrite Hc; exact Hload | destruct w; cbn [dw_of] in Hn; mlia].
    replace ((Z.of_nat (S k) - (16 + lat latency)) / 2) with 0 in * by mlia.
    rewrite (proj2 (Z.ltb_ge n 16)) by lia.
    replace load with k by lia. f_equal. lia.
  - assert (Hca : ca_active (run w latency ins k s) = false).
    { pose proof (proj1 (inv_ca_active _ _ _ Hinv)) as Hca.
      rewrite Hc in Hca.
      destruct (ca_active (run w latency ins k s)); [|reflexivity].
      specialize (Hca eq_refl). lia. }
    rewrite step_sr_shift; try assumption; rewrite ?Hc; try lia.
    rewrite Hph. unfold shift. rewrite Hca.
    unfold lat in *.
    assert (Hpar : Z.of_nat k mod 2 = 1 \/ Z.of_nat k mod 2 = 0) by mlia.
    destruct Hpar as [Hodd | Heven].
    + replace (((Z.of_nat k + 1) mod 4 =? 0) || ((Z.of_nat k + 1) mod 4 =? 2))
        with true
        by (symmetry; apply orb_true_iff; rewrite !Z.eqb_eq; mlia).
      destruct w; cbn [dw_of data_ticks] in *;
        rewrite testbit_cat by mlia;
        match goal with
        | |- context [n <? ?d] => rewrite (proj2 (Z.ltb_ge n d)) by mlia
        end;
        rewrite testbit_slice by mlia;
        match goal with
        | |- context [?a <? ?b] => rewrite (proj2 (Z.ltb_lt a b)) by mlia
        end;
        rewrite andb_true_r, Z.add_0_r;
        rewrite IH by mlia; f_equal; mlia.
    + replace (((Z.of_nat k + 1) mod 4 =? 0) || ((Z.of_nat k + 1) mod 4 =? 2))
        with false
        by (symmetry; apply orb_false_iff; rewrite !Z.eqb_neq; mlia).
      destruct w; cbn [dw_of data_ticks] in *;
        rewrite IH by mlia; f_equal; mlia.
Qed.

End DataPhase.

(** X13: in a transaction the data word of the request (taken at the tick
    of the data event, counter [15 + lat]) leaves on [dq.o] most
    significant part first, [dw] bits per beat and two ticks per beat,
    while [dq.oe] and [rwds.oe] follow [we] and chip select stays
    asserted. *)
Theorem write_data_on_dq :
  forall (w : width) (latency : Z) (ins : nat -> Inputs) (s : Regs),
    1 <= latency ->
    reachable w latency s ->
    counter s = 0 ->
    trigger (ins 0%nat) s = true ->
    forall (b : Z) (k : nat),
      0 <= b < 32 / dw_of w ->
      Z.of_nat k = 16 + lat latency + 2 * b \/
      Z.of_nat k = 17 + lat latency + 2 * b ->
      dq_o w (run w latency ins k s) =
        slice (dat_w (ins (Z.to_nat (15 + lat latency))))
              (32 - dw_of w * (b + 1)) (32 - dw_of w * b) /\
      dq_oe (run w latency ins k s) = we (ins (Z.to_nat (15 + lat latency))) /\
      rwds_oe (run w latency ins k s) = we (ins (Z.to_nat (15 + lat latency))) /\
      cs (run w latency ins k s) = true.
Proof.
  intros w latency ins s HL Hr Hidle Hstart b k Hb Hk.
  pose proof (lat_ge_4 latency HL) as Hlat.
  assert (Hend : t_end w latency = 15 + lat latency + data_ticks w)
    by reflexivity.
  assert (Hkend : 15 + lat latency < Z.of_nat k <= t_end w latency)
    by (rewrite Hend; destruct w; cbn [dw_of data_ticks] in *; mlia).
  destruct (tick_facts w latency ins s HL Hr Hidle Hstart k ltac:(lia) ltac:(lia))
    as (Hinv & Hc & _).
  pose proof (proj1 (inv_ca_active _ _ _ Hinv)) as Hca.
  pose proof (proj2 (inv_cs _ _ _ Hinv)) as Hcs.
  rewrite Hc in Hca, Hcs.
  destruct (oe_in_data_phase w latency ins s HL Hr Hidle Hstart k Hkend)
    as (Hdq & Hrw).
  split; [|split; [exact Hdq | split; [exact Hrw | apply Hcs; lia]]].
  unfold dq_o.
  destruct (ca_active (run w latency ins k s));
    [specialize (Hca eq_refl); lia|].
  apply Z.bits_inj'; intros n Hn.
  assert (Hbeat : (Z.of_nat k - (16 + lat latency)) / 2 = b) by mlia.
  destruct w; cbn [dw_of] in *; rewrite !testbit_slice by mlia;
    match goal with
    | |- _ && (n <? ?a) = _ && (n <? ?c) =>
        replace c with a by lia; destruct (Z.ltb_spec n a);
          [|now rewrite !andb_false_r]
    end;
    rewrite !andb_true_r;
    rewrite (sr_in_data_phase _ latency ins s HL Hr Hidle Hstart k Hkend)
      by (cbn [dw_of]; rewrite Hbeat; mlia);
    cbn [dw_of]; rewrite Hbeat; f_equal; lia.
Qed.

Lemma write_data_on_dq_witness :
  dq_o W16 (run W16 6 (fun _ => write_request) 62 (step W16 6 write_request reset))
    = slice (dat_w write_request) (32 - dw_of W16 * (1 + 1)) (32 - dw_of W16 * 1) /\
  dq_oe (run W16 6 (fun _ => write_request) 62 (step W16 6 write_request reset))
    = we write_request /\
  rwds_oe (run W16 6 (fun _ => write_request) 62 (step W16 6 write_request reset))
    = we write_request /\
  cs (run W16 6 (fun _ => write_request) 62 (step W16 6 write_request reset))
    = true.
Proof.
  apply (write_data_on_dq W16 6 (fun _ => write_request)
           (step W16 6 write_request reset)).
  - lia.
  - apply reach_step. apply reach_reset.
  - vm_compute. reflexivity.
  - vm_compute. reflexivity.
  - change (32 / dw_of W16) with 2. lia.
  - left. reflexivity.
Defined.

(** Each data event sets the mask of the byte lanes of its beat. *)
Lemma step_rwdso_set (w : width) (latency : Z) (i : Inputs) (s : Regs) :
  1 <= latency ->
  forall b l,
    0 <= b < 32 / dw_of w -> 0 <= l < dw_of w / 8 ->
    counter s = 15 + lat latency + 2 * b ->
    Z.testbit (rwdso (step w latency i s)) l =
      negb (Z.testbit (sel i) (dw_of w / 8 * (32 / dw_of w - 1 - b) + l)).
Proof.
  intros HL b l Hb Hl Hc. pose proof (lat_ge_4 latency HL) as Hlat.
  rewrite step_fired
    by (try assumption; unfold t_end, data_ticks; destruct w;
        cbn [dw_of] in *; mlia).
  destruct w; [rewrite t_seq_W8 | rewrite t_seq_W16]; cbn [dw_of] in *.
  - change (32 / 8) with 4 in *. change (8 / 8) with 1 in *.
    assert (l = 0) by lia; subst l.
    assert (Hcase : b = 0 \/ b = 1 \/ b = 2 \/ b = 3) by lia.
    destruct Hcase as [-> | [-> | [-> | ->]]];
      unfold fired, get_cond, t_end, data_ticks, lat in *; cbn [find fst snd];
      decide_cmp; rewrite ?andb_false_r; regs_cbn;
      rewrite testbit_set_bit by lia; reflexivity.
  - change (32 / 16) with 2 in *. change (16 / 8) with 2 in *.
    assert (Hl' : l = 0 \/ l = 1) by lia.
    assert (Hcase : b = 0 \/ b = 1) by lia.
    destruct Hl' as [-> | ->]; destruct Hcase as [-> | ->];
      unfold fired, get_cond, t_end, data_ticks, lat in *; cbn [find fst snd];
      decide_cmp; rewrite ?andb_false_r; regs_cbn;
      rewrite !testbit_set_bit by lia; reflexivity.
Qed.

(** The tick after a data event leaves the mask alone. *)
Lemma step_rwdso_kept (w : width) (latency : Z) (i : Inputs) (s : Regs) :
  1 <= latency ->
  forall b,
    0 <= b < 32 / dw_of w ->
    counter s = 16 + lat latency + 2 * b ->
    rwdso (step w latency i s) = rwdso s.
Proof.
  intros HL b Hb Hc. pose proof (lat_ge_4 latency HL) as Hlat.
  rewrite step_fired
    by (try assumption; unfold t_end, data_ticks; destruct w;
        cbn [dw_of] in *; mlia).
  destruct w; [rewrite t_seq_W8 | rewrite t_seq_W16]; cbn [dw_of] in *;
    [change (32 / 8) with 4 in * | change (32 / 16) with 2 in *];
    unfold fired, get_cond, t_end, data_ticks, lat in *; cbn [find fst snd];
    decide_cmp; rewrite ?andb_false_r; unfold clock_and_shift;
    destruct ((clk_phase s =? 0) || (clk_phase s =? 2)),
      (clk_phase s =? 1), (clk_phase s =? 3); reflexivity.
Qed.

(** X14: during beat [b] of the data phase the mask bit [rwdso[l]] of byte
    lane [l] is the complement of the [sel] bit of the byte that the lane
    carries, [sel] being read at the tick of the beat's event. *)
Theorem write_mask_follows_sel :
  forall (w : width) (latency : Z) (ins : nat -> Inputs) (s : Regs),
    1 <= latency ->
    reachable w latency s ->
    counter s = 0 ->
    trigger (ins 0%nat) s = true ->
    forall (b l : Z) (k : nat),
      0 <= b < 32 / dw_of w ->
      0 <= l < dw_of w / 8 ->
      Z.of_nat k = 16 + lat latency + 2 * b \/
      Z.of_nat k = 17 + lat latency + 2 * b ->
      Z.testbit (rwdso (run w latency ins k s)) l =
        negb (Z.testbit (sel (ins (Z.to_nat (15 + lat latency + 2 * b))))
                        (dw_of w / 8 * (32 / dw_of w - 1 - b) + l)).
Proof.
  intros w latency ins s HL Hr Hidle Hstart b l k Hb Hl Hk.
  pose proof (lat_ge_4 latency HL) as Hlat.
  assert (Hend : t_end w latency = 15 + lat latency + data_ticks w)
    by reflexivity.
  assert (Hbm : 2 * b + 2 <= data_ticks w)
    by (destruct w; cbn [dw_of data_ticks] in *; mlia).
  assert (Hset : forall j : nat,
             Z.of_nat j = 15 + lat latency + 2 * b ->
             Z.testbit (rwdso (run w latency ins (S j) s)) l =
               negb (Z.testbit (sel (ins (Z.to_nat (15 + lat latency + 2 * b))))
                               (dw_of w / 8 * (32 / dw_of w - 1 - b) + l))).
  { intros j Hj.
    destruct (tick_facts w latency ins s HL Hr Hidle Hstart j ltac:(lia) ltac:(lia))
      as (_ & Hc & _).
    cbn [run]. rewrite (step_rwdso_set w latency _ _ HL b l Hb Hl) by lia.
    replace (Z.to_nat (15 + lat latency + 2 * b)) with j by lia.
    reflexivity. }
  destruct k as [|k]; [lia|].
  destruct Hk as [Hk | Hk].
  - apply Hset. lia.
  - destruct k as [|k]; [lia|].
    destruct (tick_facts w latency ins s HL Hr Hidle Hstart (S k)
                ltac:(lia) ltac:(lia)) as (_ & Hc & _).
    change (run w latency ins (S (S k)) s)
      with (step w latency (ins (S k)) (run w latency ins (S k) s)).
    rewrite (step_rwdso_kept w latency _ _ HL b Hb) by lia.
    apply Hset. lia.
Qed.

Lemma write_mask_follows_sel_witness :
  Z.testbit
    (rwdso (run W8 6 (fun _ => write_request) 62 (step W8 6 write_request reset))) 0 =
    negb (Z.testbit (sel write_request)
                    (dw_of W8 / 8 * (32 / dw_of W8 - 1 - 1) + 0)).
Proof.
  apply (write_mask_follows_sel W8 6 (fun _ => write_request)
           (step W8 6 write_request reset)).
  - lia.
  - apply reach_step. apply reach_reset.
  - vm_compute. reflexivity.
  - vm_compute. reflexivity.
  - change (32 / dw_of W8) with 4. lia.
  - change (dw_of W8 / 8) with 1. lia.
  - left. reflexivity.
Defined.

(** *** The data phase of a read *)

Lemma exec_stmts_dqi (w : width) (i : Inputs) (a : list stmt) (r : Regs) :
  dqi (exec_stmts w i a r) = dqi r.
Proof.
  unfold exec_stmts. revert r.
  induction a as [|st a IH]; intros r; cbn [fold_left]; [reflexivity|].
  rewrite IH. destruct st; reflexivity.
Qed.

(** [dq.i] is sampled in every tick. *)
Lemma step_dqi (w : width) (latency : Z) (i : Inputs) (s : Regs) :
  1 <= latency -> 0 <= counter s <= t_end w latency + 4 ->
  dqi (step w latency i s) = trunc (dw_of w) (dq_i i).
Proof.
  intros HL Hc. rewrite step_fired by assumption.
  cbn [dqi with_counter]. rewrite exec_stmts_dqi. unfold clock_and_shift.
  destruct (clk_phase s =? 1), (clk_phase s =? 3),
    ((clk_phase s =? 0) || (clk_phase s =? 2)); reflexivity.
Qed.

Ltac same_sample :=
  apply (f_equal2 Z.testbit); [apply f_equal, f_equal; mlia | mlia].

Section ReadPhase.
Variable w : width.
Variable latency : Z.
Variable ins : nat -> Inputs.
Variable s : Regs.
Hypothesis Hlatency : 1 <= latency.
Hypothesis Hreach : reachable w latency s.
Hypothesis Hidle : counter s = 0.
Hypothesis Hstart : trigger (ins 0%nat) s = true.

Local Abbreviation at_tick := (fun k : nat => run w latency ins k s).

(** After the data event every second tick shifts one sample of [dq.i]
    in: [q] shifts leave the [q] latest samples in the low bits, the
    latest lowest. *)
Lemma sr_in_read_phase (k : nat) :
  15 + lat latency < Z.of_nat k <= t_end w latency + 4 ->
  forall n,
    0 <= n < dw_of w * ((Z.of_nat k - (16 + lat latency)) / 2) -> n < 48 ->
    Z.testbit (sr (at_tick k)) n =
    Z.testbit
      (dq_i (ins (Z.to_nat (14 + lat latency
                            + 2 * ((Z.of_nat k - (16 + lat latency)) / 2)
                            - 2 * (n / dw_of w)))))
      (n mod dw_of w).
Proof.
  pose proof (lat_ge_4 latency Hlatency) as Hlat.
  assert (Hend : t_end w latency = 15 + lat latency + data_ticks w)
    by reflexivity.
  assert (Hdata : 4 <= data_ticks w) by (destruct w; cbn; lia).
  induction k as [|k IH]; intros Hk n Hn Hn48; [lia|].
  destruct (Z.eq_dec (Z.of_nat k) (15 + lat latency)) as [Hload | Hlater].
  { exfalso. destruct w; cbn [dw_of] in Hn; mlia. }
  destruct (tick_facts w latency ins s Hlatency Hreach Hidle Hstart k
              ltac:(lia) ltac:(lia)) as (Hinv & Hc & Hph).
  destruct (tick_facts w latency ins s Hlatency Hreach Hidle Hstart (k - 1)
              ltac:(lia) ltac:(lia)) as (_ & Hc1 & _).
  assert (Hdqi : dqi (run w latency ins k s) =
                 trunc (dw_of w) (dq_i (ins (k - 1)%nat))).
  { replace k with (S (k - 1)) at 1 by lia. cbn [run].
    apply step_dqi; [assumption | rewrite Hc1; lia]. }
  cbn [run].
  assert (Hca : ca_active (run w latency ins k s) = false).
  { pose proof (proj1 (inv_ca_active _ _ _ Hinv)) as Hca.
    rewrite Hc in Hca.
    destruct (ca_active (run w latency ins k s)); [|reflexivity].
    specialize (Hca eq_refl). lia. }
  rewrite step_sr_shift; try assumption; rewrite ?Hc; try lia.
  rewrite Hph. unfold shift. rewrite Hca, Hdqi.
  unfold lat in *.
  assert (Hpar : Z.of_nat k mod 2 = 1 \/ Z.of_nat k mod 2 = 0) by mlia.
  destruct Hpar as [Hodd | Heven].
  - replace (((Z.of_nat k + 1) mod 4 =? 0) || ((Z.of_nat k + 1) mod 4 =? 2))
      with true
      by (symmetry; apply orb_true_iff; rewrite !Z.eqb_eq; mlia).
    destruct w; cbn [dw_of data_ticks] in *;
      rewrite testbit_cat by mlia;
      match goal with
      | |- context [n <? ?d] => destruct (Z.ltb_spec n d)
      end;
      [ unfold trunc; rewrite Z.land_spec, testbit_ones_inrange by lia;
        match goal with
        | |- context [?a <? ?b] => rewrite (proj2 (Z.ltb_lt a b)) by lia
        end;
        rewrite andb_true_r
      | rewrite testbit_slice by mlia;
        match goal with
        | |- context [?a <? ?b] => rewrite (proj2 (Z.ltb_lt a b)) by mlia
        end;
        rewrite andb_true_r, Z.add_0_r;
        rewrite IH by mlia
      | unfold trunc; rewrite Z.land_spec, testbit_ones_inrange by lia;
        match goal with
        | |- context [?a <? ?b] => rewrite (proj2 (Z.ltb_lt a b)) by lia
        end;
        rewrite andb_true_r
      | rewrite testbit_slice by mlia;
        match goal with
        | |- context [?a <? ?b] => rewrite (proj2 (Z.ltb_lt a b)) by mlia
        end;
        rewrite andb_true_r, Z.add_0_r;
        rewrite IH by mlia ];
      same_sample.
  - replace (((Z.of_nat k + 1) mod 4 =? 0) || ((Z.of_nat k + 1) mod 4 =? 2))
      with false
      by (symmetry; apply orb_false_iff; rewrite !Z.eqb_neq; mlia).
    destruct w; cbn [dw_of data_ticks] in *;
      rewrite IH by mlia;
      same_sample.
Qed.

End ReadPhase.

(** X15: in the tick in which the transaction is acknowledged, [dat_r] is
    made of the last [32 / dw] samples of [dq.i], one taken every second
    tick, the latest (input of tick [t_end + 1]) in the low bits. *)
Theorem read_data_at_ack :
  forall (w : width) (latency : Z) (ins : nat -> Inputs) (s : Regs),
    1 <= latency ->
    reachable w latency s ->
    counter s = 0 ->
    trigger (ins 0%nat) s = true ->
    ack (run w latency ins (Z.to_nat (t_end w latency + 3)) s) = true /\
    forall j : Z,
      0 <= j < 32 / dw_of w ->
      slice (dat_r (run w latency ins (Z.to_nat (t_end w latency + 3)) s))
            (dw_of w * j) (dw_of w * (j + 1)) =
        trunc (dw_of w)
              (dq_i (ins (Z.to_nat (t_end w latency + 1 - 2 * j)))).
Proof.
  intros w latency ins s HL Hr Hidle Hstart.
  pose proof (lat_ge_4 latency HL) as Hlat.
  assert (Hend : t_end w latency = 15 + lat latency + data_ticks w)
    by reflexivity.
  assert (Hdata : data_ticks w = 2 * (32 / dw_of w)) by (destruct w; reflexivity).
  assert (Hdw : dw_of w * (32 / dw_of w) = 32) by (destruct w; reflexivity).
  assert (Hticks : 4 <= data_ticks w) by (destruct w; cbn; lia).
  set (k := Z.to_nat (t_end w latency + 3)).
  assert (Hk : Z.of_nat k = t_end w latency + 3) by (unfold k; lia).
  clearbody k.
  destruct (tick_facts w latency ins s HL Hr Hidle Hstart k ltac:(lia) ltac:(lia))
    as (Hinv & Hc & _).
  split.
  { apply (inv_ack _ _ _ Hinv). rewrite Hc. exact Hk. }
  intros j Hj.
  assert (Hq : (Z.of_nat k - (16 + lat latency)) / 2 = 32 / dw_of w + 1)
    by (destruct w; cbn [dw_of data_ticks] in *;
        change (32 / 8) with 4 in *; change (32 / 16) with 2 in *; mlia).
  apply Z.bits_inj'; intros n Hn.
  unfold dat_r, trunc.
  destruct w; cbn [dw_of data_ticks] in *;
    [change (32 / 8) with 4 in * | change (32 / 16) with 2 in *];
    rewrite testbit_slice by lia;
    rewrite !Z.land_spec, !testbit_ones_inrange by lia;
    match goal with
    | |- _ && (n <? ?a) = _ && (n <? ?c) =>
        replace a with c by lia; destruct (Z.ltb_spec n c);
          [|now rewrite !andb_false_r]
    end;
    match goal with
    | |- context [?a <? 32] => rewrite (proj2 (Z.ltb_lt a 32)) by lia
    end;
    rewrite !andb_true_r;
    rewrite (sr_in_read_phase _ latency ins s HL Hr Hidle Hstart k)
      by (cbn [dw_of]; rewrite ?Hq; lia);
    cbn [dw_of]; rewrite Hq;
      same_sample.
Qed.

Lemma read_data_at_ack_witness :
  ack (run W8 6 (fun _ => write_request) (Z.to_nat (t_end W8 6 + 3))
           (step W8 6 write_request reset)) = true /\
  forall j : Z,
    0 <= j < 32 / dw_of W8 ->
    slice (dat_r (run W8 6 (fun _ => write_request) (Z.to_nat (t_end W8 6 + 3))
                      (step W8 6 write_request reset)))
          (dw_of W8 * j) (dw_of W8 * (j + 1)) =
      trunc (dw_of W8) (dq_i write_request).
Proof.
  apply (read_data_at_ack W8 6 (fun _ => write_request)
           (step W8 6 write_request reset)).
  - lia.
  - apply reach_step. apply reach_reset.
  - vm_compute. reflexivity.
  - vm_compute. reflexivity.
Defined.

End Timeline.

(** ** Transactions of the burst controller *)

Section BurstTransactions.
Import Sig HyperRAMX2.

(** *** From CLK-OFF back to IDLE *)

Lemma recovery_follows_path (latency : Z) (ins : nat -> Inputs) (s : Regs) :
  fsm s = CLK_OFF ->
  forall k : nat, (k <= 13)%nat -> fsm (run latency ins k s) = recovery_path k.
Proof.
  intros Hoff. induction k as [|k IH]; intros Hk; [exact Hoff|].
  specialize (IH ltac:(lia)). cbn [run]. unfold step. rewrite IH.
  do 13 (destruct k as [|k]; [reflexivity|]). lia.
Qed.

(** X1: from CLK-OFF the controller is back in IDLE exactly 13 ticks later
    (CLEANUP, HOLD-WAIT, ten WAIT states), whatever the host and the device
    do meanwhile: no tick acknowledges, a request is not taken up before
    IDLE, the clock enable is off throughout and chip-select and both
    output-enables are off from HOLD-WAIT on. *)
Theorem recovery_takes_13_ticks :
  forall (latency : Z) (ins : nat -> Inputs) (s : Regs),
    reachable latency s ->
    fsm s = CLK_OFF ->
    fsm (run latency ins 13 s) = IDLE /\
    (forall k, (k < 13)%nat ->
       fsm (run latency ins k s) <> IDLE /\
       ack (ins k) (run latency ins k s) = false) /\
    (forall k, (1 <= k <= 13)%nat -> clk (run latency ins k s) = false) /\
    (forall k, (2 <= k <= 13)%nat ->
       cs (run latency ins k s) = false /\
       dq_oe (run latency ins k s) = false /\
       rwds_oe (run latency ins k s) = false).
Proof.
  intros latency ins s Hr Hoff.
  pose proof (recovery_follows_path latency ins s Hoff) as Hpath.
  assert (Hinv : forall k, inv (run latency ins k s))
    by (intros k; apply reachable_inv with latency; apply reachable_run; exact Hr).
  split; [|split; [|split]].
  - rewrite Hpath by lia. reflexivity.
  - intros k Hk. unfold ack. rewrite Hpath by lia.
    do 13 (destruct k as [|k]; [split; [discriminate | reflexivity]|]). lia.
  - intros k Hk. specialize (Hinv k). unfold inv in Hinv.
    rewrite Hpath in Hinv by lia.
    destruct k as [|k]; [lia|].
    do 13 (destruct k as [|k];
      [cbn [recovery_path Nat.sub Nat.ltb Nat.leb] in Hinv; tauto|]). lia.
  - intros k Hk. specialize (Hinv k). unfold inv in Hinv.
    rewrite Hpath in Hinv by lia.
    destruct k as [|[|k]]; [lia | lia |].
    do 12 (destruct k as [|k];
      [cbn [recovery_path Nat.sub Nat.ltb Nat.leb] in Hinv; tauto|]). lia.
Qed.

Lemma recovery_takes_13_ticks_witness :
  let s := run 6 (fun _ => read_request) 31 reset in
  fsm (run 6 (fun _ => burst_write_beat) 13 s) = IDLE /\
  (forall k, (k < 13)%nat ->
     fsm (run 6 (fun _ => burst_write_beat) k s) <> IDLE /\
     ack burst_write_beat (run 6 (fun _ => burst_write_beat) k s) = false) /\
  (forall k, (1 <= k <= 13)%nat ->
     clk (run 6 (fun _ => burst_write_beat) k s) = false) /\
  (forall k, (2 <= k <= 13)%nat ->
     cs (run 6 (fun _ => burst_write_beat) k s) = false /\
     dq_oe (run 6 (fun _ => burst_write_beat) k s) = false /\
     rwds_oe (run 6 (fun _ => burst_write_beat) k s) = false).
Proof.
  intros s.
  apply (recovery_takes_13_ticks 6 (fun _ => burst_write_beat) s).
  - apply reachable_run. apply reach_reset.
  - vm_compute. reflexivity.
Defined.

Lemma recovery_quiet (latency : Z) (ins : nat -> Inputs) (s : Regs) :
  fsm s = CLK_OFF ->
  forall k, (k < 13)%nat ->
    fsm (run latency ins k s) <> IDLE /\
    ack (ins k) (run latency ins k s) = false.
Proof.
  intros Hoff k Hk. unfold ack.
  rewrite (recovery_follows_path latency ins s Hoff) by lia.
  do 13 (destruct k as [|k]; [split; [discriminate | reflexivity]|]). lia.
Qed.

Lemma acks_S (latency : Z) (ins : nat -> Inputs) (n : nat) (s : Regs) :
  acks latency ins (S n) s =
  (acks latency ins n s
   + if ack (ins n) (run latency ins n s) then 1 else 0)%nat.
Proof. reflexivity. Qed.

(** *** A single write *)

Lemma step_last_write (latency : Z) (i : Inputs) (s : Regs) :
  fsm s = READ_WRITE -> we i = true -> cti i <> 2 -> cyc i = true ->
  fsm (step latency i s) = CLK_OFF /\ ack i s = true.
Proof.
  intros Hf Hwe Hcti Hcyc. unfold step, ack.
  rewrite Hf, Hwe, Hcyc, (proj2 (Z.eqb_neq (cti i) 2) Hcti). cbn. auto.
Qed.

(** X2: a write that is not an incrementing burst ([cti] other than
    [0b010] in the READ-WRITE tick, [cyc] held) is acknowledged exactly
    once, in the READ-WRITE tick [n = 5 + max 0 (latency - 3)] ticks after
    the request, and the controller is in IDLE again 14 ticks after that
    and in no tick in between. *)
Theorem single_write_one_ack_then_idle :
  forall (latency : Z) (ins : nat -> Inputs) (s : Regs),
    let n := (5 + Z.to_nat (latency_delay latency))%nat in
    fsm s = IDLE ->
    cyc (ins 0%nat) && stb (ins 0%nat) = true ->
    we (ins n) = true -> cti (ins n) <> 2 -> cyc (ins n) = true ->
    ack (ins n) (run latency ins n s) = true /\
    acks latency ins (n + 14) s = 1%nat /\
    fsm (run latency ins (n + 14) s) = IDLE /\
    (forall k, (1 <= k < n + 14)%nat -> fsm (run latency ins k s) <> IDLE).
Proof.
  intros latency ins s n Hidle Hreq Hwe Hcti Hcyc.
  destruct (request_reaches_read_write latency ins s Hidle Hreq)
    as (Hrw & Hbusy & Hquiet). fold n in Hrw, Hbusy, Hquiet.
  destruct (step_last_write latency (ins n) (run latency ins n s) Hrw Hwe Hcti Hcyc)
    as (Hoff & Hack).
  rewrite <- run_S in Hoff. clearbody n.
  pose proof (recovery_follows_path latency (fun k => ins (S n + k)%nat) _ Hoff)
    as Hpath.
  pose proof (recovery_quiet latency (fun k => ins (S n + k)%nat) _ Hoff)
    as Hrec.
  split; [exact Hack|]. split; [|split].
  - replace (n + 14)%nat with (S n + 13)%nat by lia.
    rewrite acks_add, acks_S, Hack.
    rewrite (acks_none latency ins n s Hquiet).
    rewrite acks_none by (intros k Hk; apply Hrec; exact Hk). reflexivity.
  - replace (n + 14)%nat with (S n + 13)%nat by lia.
    rewrite run_add, Hpath by lia. reflexivity.
  - intros k Hk. destruct (Nat.le_gt_cases k n) as [Hle | Hgt].
    + apply Hbusy. lia.
    + replace k with (S n + (k - S n))%nat by lia. rewrite run_add.
      apply Hrec. lia.
Qed.

Lemma single_write_one_ack_then_idle_witness :
  let ins := fun k : nat => if (k =? 8)%nat then
                 {| cyc := true; stb := true; we := true; adr := 4; dat_w := 255;
                    sel := 15; cti := 7; phy_dq_i := 0; phy_rwds_i := 0 |}
               else burst_write_beat in
  ack (ins 8%nat) (run 6 ins 8 reset) = true /\
  acks 6 ins (8 + 14) reset = 1%nat /\
  fsm (run 6 ins (8 + 14) reset) = IDLE /\
  (forall k, (1 <= k < 8 + 14)%nat -> fsm (run 6 ins k reset) <> IDLE).
Proof.
  intros ins.
  apply (single_write_one_ack_then_idle 6 ins reset).
  - reflexivity.
  - reflexivity.
  - reflexivity.
  - cbn. discriminate.
  - reflexivity.
Defined.

(** *** Reads *)

Lemma step_read_ack_ready (latency : Z) (i : Inputs) (s : Regs) :
  fsm s = READ_ACK -> ready i = true ->
  ack i s = true /\
  timeout_counter (step latency i s) = 0 /\
  fsm (step latency i s) =
    if negb (cyc i) || (20 <? timeout_counter s) then CLK_OFF
    else if cti i =? 2 then READ_ACK else CLEANUP.
Proof.
  unfold ready. intros Hf Hr. unfold step, ack. rewrite Hf, Hr.
  destruct (negb (cyc i) || (20 <? timeout_counter s)), (cti i =? 2);
    cbn; auto.
Qed.

(** While the device is silent and the host holds [cyc], READ-ACK counts
    the ticks. *)
Lemma waits_while_silent (latency : Z) (ins : nat -> Inputs) (s : Regs) :
  fsm s = READ_ACK -> timeout_counter s = 0 ->
  forall k : nat, (k <= 21)%nat ->
    (forall j, (j < k)%nat -> ready (ins j) = false /\ cyc (ins j) = true) ->
    fsm (run latency ins k s) = READ_ACK /\
    timeout_counter (run latency ins k s) = Z.of_nat k /\
    forall j, (j < k)%nat -> ack (ins j) (run latency ins j s) = false.
Proof.
  intros Hf Hz. induction k as [|k IH]; intros Hk Hsil.
  - split; [exact Hf|]. split; [exact Hz|]. intros j Hj. lia.
  - destruct IH as (Hfk & Hck & Hbefore); [lia | intros j Hj; apply Hsil; lia|].
    destruct (Hsil k ltac:(lia)) as (Hrk & Hcyck).
    destruct (step_read_ack_silent latency (ins k) (run latency ins k s) Hfk Hrk)
      as (Hf' & Hc' & Hackk).
    rewrite Hck, Hcyck in Hf'. rewrite Hck in Hc'.
    rewrite (proj2 (Z.ltb_ge 20 (Z.of_nat k))) in Hf' by lia.
    rewrite trunc_in_range in Hc' by (change (2 ^ 6) with 64; lia).
    cbn [run]. split; [exact Hf'|]. split; [rewrite Hc'; lia|].
    intros j Hj. destruct (Nat.eq_dec j k) as [-> | Hne]; [exact Hackk|].
    apply Hbefore. lia.
Qed.

(** X3: a read whose device first shows ready [m] ticks after READ-ACK was
    entered ([m <= 21], [cyc] held) is acknowledged in exactly that tick
    and in none before; the counter is 0 again, and the next state is
    READ-ACK for an incrementing burst and CLEANUP otherwise, except in
    the very last tick before the timeout ([m = 21]), where the beat is
    still acknowledged but the controller goes to CLK-OFF. *)
Theorem read_acknowledged_when_ready :
  forall (latency : Z) (ins : nat -> Inputs) (s : Regs) (m : nat),
    fsm s = READ_ACK -> timeout_counter s = 0 ->
    (m <= 21)%nat ->
    (forall j, (j < m)%nat -> ready (ins j) = false /\ cyc (ins j) = true) ->
    ready (ins m) = true -> cyc (ins m) = true ->
    (forall j, (j < m)%nat -> ack (ins j) (run latency ins j s) = false) /\
    ack (ins m) (run latency ins m s) = true /\
    acks latency ins (S m) s = 1%nat /\
    timeout_counter (run latency ins (S m) s) = 0 /\
    fsm (run latency ins (S m) s) =
      (if (m <? 21)%nat
       then if cti (ins m) =? 2 then READ_ACK else CLEANUP
       else CLK_OFF).
Proof.
  intros latency ins s m Hf Hz Hm Hsil Hready Hcyc.
  destruct (waits_while_silent latency ins s Hf Hz m Hm Hsil)
    as (Hfm & Hcm & Hbefore).
  destruct (step_read_ack_ready latency (ins m) (run latency ins m s) Hfm Hready)
    as (Hack & Hc' & Hf').
  rewrite Hcm, Hcyc in Hf'. cbn [negb orb] in Hf'.
  split; [exact Hbefore|]. split; [exact Hack|]. split; [|split].
  - rewrite acks_S, (acks_none latency ins m s Hbefore), Hack. reflexivity.
  - exact Hc'.
  - rewrite run_S, Hf'.
    destruct (Nat.ltb_spec m 21).
    + rewrite (proj2 (Z.ltb_ge 20 (Z.of_nat m))) by lia. reflexivity.
    + rewrite (proj2 (Z.ltb_lt 20 (Z.of_nat m))) by lia. reflexivity.
Qed.

Lemma read_acknowledged_when_ready_witness :
  let ins := fun k : nat => if (k =? 3)%nat then read_ready else read_request in
  let s := run 6 (fun _ => read_request) 9 reset in
  (forall j, (j < 3)%nat -> ack (ins j) (run 6 ins j s) = false) /\
  ack (ins 3%nat) (run 6 ins 3 s) = true /\
  acks 6 ins 4 s = 1%nat /\
  timeout_counter (run 6 ins 4 s) = 0 /\
  fsm (run 6 ins 4 s) =
    (if (3 <? 21)%nat
     then if cti (ins 3%nat) =? 2 then READ_ACK else CLEANUP
     else CLK_OFF).
Proof.
  intros ins s.
  apply (read_acknowledged_when_ready 6 ins s 3).
  - reflexivity.
  - reflexivity.
  - lia.
  - intros j Hj. destruct j as [|[|[|j]]]; [split; reflexivity .. | lia].
  - reflexivity.
  - reflexivity.
Defined.

(** X4: in READ-ACK, N consecutive ticks in which the device shows ready
    and the host holds [cyc] and signals an incrementing burst are N
    acknowledged beats: one acknowledgment per tick, the controller stays
    in READ-ACK and the timeout counter is 0 after each. *)
Theorem burst_read_n_beats_n_acks :
  forall (latency : Z) (N : nat) (ins : nat -> Inputs) (s : Regs),
    fsm s = READ_ACK ->
    timeout_counter s <= 20 ->
    (forall k, (k < N)%nat ->
       ready (ins k) = true /\ cti (ins k) = 2 /\ cyc (ins k) = true) ->
    acks latency ins N s = N /\
    (forall k, (k < N)%nat -> ack (ins k) (run latency ins k s) = true) /\
    (forall k, (k <= N)%nat -> fsm (run latency ins k s) = READ_ACK) /\
    (forall k, (1 <= k <= N)%nat -> timeout_counter (run latency ins k s) = 0).
Proof.
  intros latency N ins s Hf Hc. induction N as [|N IH]; intros Hbeats.
  - cbn [acks]. repeat split; intros k Hk; try lia.
    replace k with O by lia. exact Hf.
  - destruct IH as (Hacks & Hack & Hst & Hzero); [intros k Hk; apply Hbeats; lia|].
    destruct (Hbeats N ltac:(lia)) as (Hr & Hcti & Hcyc).
    assert (HcN : timeout_counter (run latency ins N s) <= 20).
    { destruct N as [|N]; [exact Hc|]. rewrite Hzero by lia. lia. }
    destruct (step_read_ack_ready latency (ins N) (run latency ins N s)
                (Hst N ltac:(lia)) Hr) as (HackN & Hc' & Hf').
    rewrite Hcyc, Hcti in Hf'.
    rewrite (proj2 (Z.ltb_ge 20 _) HcN) in Hf'. cbn in Hf'.
    repeat split.
    + rewrite acks_S, Hacks, HackN. lia.
    + intros k Hk. destruct (Nat.eq_dec k N) as [-> | Hne]; [exact HackN|].
      apply Hack. lia.
    + intros k Hk. destruct (Nat.eq_dec k (S N)) as [-> | Hne].
      * rewrite run_S. exact Hf'.
      * apply Hst. lia.
    + intros k Hk. destruct (Nat.eq_dec k (S N)) as [-> | Hne].
      * rewrite run_S. exact Hc'.
      * apply Hzero. lia.
Qed.

Lemma burst_read_n_beats_n_acks_witness :
  let s := run 6 (fun _ => read_request) 9 reset in
  acks 6 (fun _ => burst_read_beat) 4 s = 4%nat /\
  (forall k, (k < 4)%nat ->
     ack burst_read_beat (run 6 (fun _ => burst_read_beat) k s) = true) /\
  (forall k, (k <= 4)%nat ->
     fsm (run 6 (fun _ => burst_read_beat) k s) = READ_ACK) /\
  (forall k, (1 <= k <= 4)%nat ->
     timeout_counter (run 6 (fun _ => burst_read_beat) k s) = 0).
Proof.
  intros s.
  apply (burst_read_n_beats_n_acks 6 4 (fun _ => burst_read_beat) s).
  - reflexivity.
  - vm_compute. discriminate.
  - intros k Hk. repeat split.
Defined.

(** *** The timeout counter *)

(** X5: the 6-bit timeout counter never wraps around: in every state the
    controller can be in it is between 0 and 22, and at most 21 in
    READ-ACK. *)
Theorem timeout_counter_bounded :
  forall (latency : Z) (s : Regs),
    reachable latency s ->
    0 <= timeout_counter s <= 22 /\
    (fsm s = READ_ACK -> timeout_counter s <= 21).
Proof.
  intros latency s Hr. induction Hr as [|i s Hr IH].
  - cbn. split; [lia | discriminate].
  - pose proof (reachable_inv latency s Hr) as Hinv.
    destruct IH as (Hrange & Hwait).
    unfold inv in Hinv. unfold step, enter, delayed_next.
    destruct (fsm s) eqn:Hf;
      try rewrite trunc_in_range
        by (specialize (Hwait eq_refl); change (2 ^ 6) with 64; lia);
      repeat match goal with
        | |- context [if ?c then _ else _] => destruct c eqn:?
        end;
      cbn; rewrite ?Hf;
      (split; [|intros Hst; try discriminate Hst]);
      try specialize (Hwait eq_refl);
      repeat match goal with
        | H : (_ <? _) = false |- _ => apply Z.ltb_ge in H
        | H : (_ <? _) = true |- _ => apply Z.ltb_lt in H
        end;
      try lia; try (destruct Hinv as (_ & Hz); lia).
Qed.

Lemma timeout_counter_bounded_witness :
  0 <= timeout_counter (run 6 (fun _ => read_request) 31 reset) <= 22 /\
  (fsm (run 6 (fun _ => read_request) 31 reset) = READ_ACK ->
   timeout_counter (run 6 (fun _ => read_request) 31 reset) <= 21).
Proof.
  apply (timeout_counter_bounded 6).
  apply reachable_run. apply reach_reset.
Defined.

(** *** What goes out on the data lines *)

Lemma slice_cat_above (k lo hi a b : Z) :
  0 <= k -> k <= a -> a <= b ->
  slice (cat k lo hi) a b = slice hi (a - k) (b - k).
Proof.
  intros Hk Ha Hb. apply Z.bits_inj'; intros n Hn.
  rewrite !testbit_slice by lia. rewrite testbit_cat by lia.
  rewrite (proj2 (Z.ltb_ge (n + a) k)) by lia.
  replace (n + a - k) with (n + (a - k)) by lia.
  replace (b - k - (a - k)) with (b - a) by lia. reflexivity.
Qed.

Lemma slice_set_slice_same (x lo hi v : Z) :
  0 <= lo -> lo <= hi ->
  slice (set_slice x lo hi v) lo hi = slice v 0 (hi - lo).
Proof.
  intros Hlo Hhi. apply Z.bits_inj'; intros n Hn.
  rewrite !testbit_slice by lia. rewrite testbit_set_slice by lia.
  rewrite Z.sub_0_r, Z.add_0_r.
  destruct (Z.ltb_spec n (hi - lo)).
  - rewrite (proj2 (Z.leb_le lo (n + lo))) by lia.
    rewrite (proj2 (Z.ltb_lt (n + lo) hi)) by lia. cbn [andb].
    f_equal. f_equal. lia.
  - now rewrite !andb_false_r.
Qed.

Lemma step_from_idle (latency : Z) (i : Inputs) (s : Regs) :
  fsm s = IDLE -> cyc i && stb i = true ->
  step latency i s = with_fsm CA_SEND (with_cs true (shift_regs i s)).
Proof. intros Hf Hreq. unfold step. rewrite Hf, Hreq. reflexivity. Qed.

Lemma step_from_ca_send (latency : Z) (i : Inputs) (s : Regs) :
  fsm s = CA_SEND ->
  step latency i s =
  with_fsm CA_WAIT
    (with_sr_out (cat 16 0 (CommandB.ca (we i) (adr i)))
       (with_dq_oe true (with_clk true (shift_regs i s)))).
Proof. intros Hf. unfold step. rewrite Hf. reflexivity. Qed.

Lemma step_from_ca_wait (latency : Z) (i : Inputs) (s : Regs) :
  fsm s = CA_WAIT ->
  step latency i s = with_fsm LATENCY (with_timeout_counter 0 (shift_regs i s)).
Proof. intros Hf. unfold step. rewrite Hf. reflexivity. Qed.

Lemma step_from_latency (latency : Z) (i : Inputs) (s : Regs) :
  fsm s = LATENCY ->
  step latency i s =
  with_fsm (enter (latency_delay latency) LATENCY_WAIT READ_WRITE_SETUP)
    (with_dq_oe false (shift_regs i s)).
Proof. intros Hf. unfold step. rewrite Hf. reflexivity. Qed.

(** X6: after a request in IDLE the 48-bit command word, built from [we]
    and [adr] of the CA-SEND tick, leaves on [phy.dq.o] in two ticks: bits
    47 to 16 in the CA-WAIT tick and bits 15 to 0, in the upper half of
    the lines, in the LATENCY tick; [phy.dq.oe] is asserted in exactly
    these two ticks, with chip-select and the clock enable asserted. *)
Theorem x2_command_sent_in_two_ticks :
  forall (latency : Z) (ins : nat -> Inputs) (s : Regs),
    reachable latency s ->
    fsm s = IDLE ->
    cyc (ins 0%nat) && stb (ins 0%nat) = true ->
    let c := CommandB.ca (we (ins 1%nat)) (adr (ins 1%nat)) in
    phy_dq_o (run latency ins 2 s) = slice c 16 48 /\
    phy_dq_o (run latency ins 3 s) = Z.shiftl (slice c 0 16) 16 /\
    dq_oe (run latency ins 1 s) = false /\
    dq_oe (run latency ins 2 s) = true /\
    dq_oe (run latency ins 3 s) = true /\
    dq_oe (run latency ins 4 s) = false /\
    (forall k, (2 <= k <= 3)%nat ->
       cs (run latency ins k s) = true /\ clk (run latency ins k s) = true).
Proof.
  intros latency ins s Hr Hidle Hreq c.
  pose proof (reachable_inv latency s Hr) as Hinv.
  unfold inv in Hinv. rewrite Hidle in Hinv.
  destruct Hinv as (_ & _ & Hoe & _).
  assert (E1 : run latency ins 1 s
               = with_fsm CA_SEND (with_cs true (shift_regs (ins 0%nat) s)))
    by (apply step_from_idle; assumption).
  assert (E2 : run latency ins 2 s
               = with_fsm CA_WAIT
                   (with_sr_out (cat 16 0 c)
                      (with_dq_oe true
                         (with_clk true
                            (shift_regs (ins 1%nat) (run latency ins 1 s))))))
    by (rewrite run_S; apply step_from_ca_send; rewrite E1; reflexivity).
  assert (E3 : run latency ins 3 s
               = with_fsm LATENCY
                   (with_timeout_counter 0
                      (shift_regs (ins 2%nat) (run latency ins 2 s))))
    by (rewrite run_S; apply step_from_ca_wait; rewrite E2; reflexivity).
  assert (E4 : run latency ins 4 s
               = with_fsm (enter (latency_delay latency) LATENCY_WAIT
                                 READ_WRITE_SETUP)
                   (with_dq_oe false
                      (shift_regs (ins 3%nat) (run latency ins 3 s))))
    by (rewrite run_S; apply step_from_latency; rewrite E3; reflexivity).
  assert (Hcs1 : cs (run latency ins 1 s) = true) by (rewrite E1; reflexivity).
  assert (Hcs2 : cs (run latency ins 2 s) = true) by (rewrite E2; exact Hcs1).
  assert (Hclk2 : clk (run latency ins 2 s) = true) by (rewrite E2; reflexivity).
  split; [|split; [|split; [|split; [|split; [|split]]]]].
  - rewrite E2. unfold phy_dq_o. cbn [sr_out with_fsm with_sr_out].
    apply (slice_cat_above 16 0 c 32 64); lia.
  - rewrite E3. unfold phy_dq_o, shift_regs.
    cbn [sr_out with_fsm with_sr_out with_timeout_counter with_sr_in
         with_sr_rwds_in with_sr_rwds_out].
    rewrite (slice_cat_above 32 0 _ 32 64) by lia.
    rewrite E2. cbn [sr_out with_fsm with_sr_out].
    apply Z.bits_inj'; intros n Hn.
    assert (Hcase : n < 16 \/ 16 <= n < 32 \/ 32 <= n) by lia.
    destruct Hcase as [H | [H | H]];
      rewrite ?Z.shiftl_spec_low by lia; rewrite ?Z.shiftl_spec by lia;
      rewrite !testbit_slice by lia; rewrite testbit_cat by lia;
      rewrite ?Z.bits_0; decide_cmp;
      rewrite ?andb_true_r, ?andb_false_r; try reflexivity.
    f_equal. lia.
  - rewrite E1. exact Hoe.
  - rewrite E2. reflexivity.
  - rewrite E3, E2. reflexivity.
  - rewrite E4. reflexivity.
  - intros k Hk. assert (Hcase : k = 2%nat \/ k = 3%nat) by lia.
    destruct Hcase as [-> | ->]; [auto|].
    rewrite E3. split; [exact Hcs2 | exact Hclk2].
Qed.

Lemma x2_command_sent_in_two_ticks_witness :
  let c := CommandB.ca (we read_request) (adr read_request) in
  phy_dq_o (run 6 (fun _ => read_request) 2 reset) = slice c 16 48 /\
  phy_dq_o (run 6 (fun _ => read_request) 3 reset) = Z.shiftl (slice c 0 16) 16 /\
  dq_oe (run 6 (fun _ => read_request) 1 reset) = false /\
  dq_oe (run 6 (fun _ => read_request) 2 reset) = true /\
  dq_oe (run 6 (fun _ => read_request) 3 reset) = true /\
  dq_oe (run 6 (fun _ => read_request) 4 reset) = false /\
  (forall k, (2 <= k <= 3)%nat ->
     cs (run 6 (fun _ => read_request) k reset) = true /\
     clk (run 6 (fun _ => read_request) k reset) = true).
Proof.
  apply (x2_command_sent_in_two_ticks 6 (fun _ => read_request) reset).
  - apply reach_reset.
  - reflexivity.
  - reflexivity.
Defined.

Lemma slice_cat_below (k lo hi a b : Z) :
  0 <= a -> a <= b -> b <= k ->
  slice (cat k lo hi) a b = slice lo a b.
Proof.
  intros Ha Hb Hk. apply Z.bits_inj'; intros n Hn.
  rewrite !testbit_slice by lia.
  destruct (Z.ltb_spec n (b - a)); [|now rewrite !andb_false_r].
  rewrite testbit_cat by lia.
  rewrite (proj2 (Z.ltb_lt (n + a) k)) by lia. reflexivity.
Qed.

(** X7: in the tick after a write beat (READ-WRITE with [we]) the write
    data of that beat are on [phy.dq.o], the byte-select bits, inverted,
    on [phy.rwds.o], and [phy.dq.oe] is asserted, whether the burst goes
    on or not. *)
Theorem write_beat_on_the_lines :
  forall (latency : Z) (i : Inputs) (s : Regs),
    fsm s = READ_WRITE -> we i = true ->
    phy_dq_o (step latency i s) = slice (dat_w i) 0 32 /\
    (forall n, 0 <= n ->
       Z.testbit (phy_rwds_o (step latency i s)) n =
         (n <? 4) && negb (Z.testbit (sel i) n)) /\
    dq_oe (step latency i s) = true.
Proof.
  intros latency i s Hf Hwe. unfold step. rewrite Hf, Hwe.
  unfold phy_dq_o, phy_rwds_o.
  destruct (cti i =? 2), (negb (cyc i));
    cbn [sr_out sr_rwds_out dq_oe with_fsm with_clk with_dq_oe with_sr_out
         with_sr_rwds_out];
    (split; [|split]); try reflexivity;
    try (rewrite slice_set_slice_same by lia; reflexivity).
  all: intros n Hn; rewrite slice_set_slice_same by lia;
    rewrite testbit_slice by lia;
    rewrite Z.lxor_spec, testbit_slice, testbit_ones_inrange by lia;
    rewrite !Z.add_0_r;
    destruct (Z.lt_ge_cases n 4); decide_cmp;
    rewrite ?andb_true_r, ?andb_false_r;
    destruct (Z.testbit (sel i) n); reflexivity.
Qed.

Lemma write_beat_on_the_lines_witness :
  let s := run 6 (fun _ => burst_write_beat) 8 reset in
  phy_dq_o (step 6 burst_write_beat s) = slice (dat_w burst_write_beat) 0 32 /\
  (forall n, 0 <= n ->
     Z.testbit (phy_rwds_o (step 6 burst_write_beat s)) n =
       (n <? 4) && negb (Z.testbit (sel burst_write_beat) n)) /\
  dq_oe (step 6 burst_write_beat s) = true.
Proof.
  intros s. apply (write_beat_on_the_lines 6 burst_write_beat s); reflexivity.
Defined.

(** *** What comes in *)

Lemma step_sr_in (latency : Z) (i : Inputs) (s : Regs) :
  sr_in (step latency i s) = cat 32 (phy_dq_i i) (slice (sr_in s) 0 32).
Proof.
  unfold step, shift_regs.
  destruct (fsm s);
    repeat match goal with
      | |- context [if ?c then _ else _] => destruct c
      end; reflexivity.
Qed.

(** X8: in every tick after the first, the read data presented to the
    host are, in bits 15 to 0, the upper half of what the PHY samples in
    that tick and, in bits 31 to 16, the lower half of what it sampled in
    the tick before; no state of the FSM touches the input register. *)
Theorem read_data_spans_two_samples :
  forall (latency : Z) (i i' : Inputs) (s : Regs),
    dat_r i' (step latency i s) =
    cat 16 (slice (phy_dq_i i') 16 32) (slice (phy_dq_i i) 0 16).
Proof.
  intros latency i i' s. unfold dat_r. rewrite step_sr_in.
  rewrite slice_cat_below by lia. reflexivity.
Qed.

(** *** The host drops the cycle *)

Lemma step_recovery (latency : Z) (i : Inputs) (s : Regs) (m : nat) :
  (m < 13)%nat -> fsm s = recovery_path m ->
  fsm (step latency i s) = recovery_path (S m) /\
  (1 <= m -> clk (step latency i s) = clk s)%nat /\
  (m = 0%nat -> clk (step latency i s) = false).
Proof.
  intros Hm Hf. unfold step. rewrite Hf.
  do 13 (destruct m as [|m];
         [repeat split; intros; try reflexivity; lia|]).
  lia.
Qed.

Lemma recovery_from (latency : Z) (ins : nat -> Inputs) (s : Regs) (j : nat) :
  fsm s = recovery_path j ->
  forall k, (j + k <= 13)%nat ->
    fsm (run latency ins k s) = recovery_path (j + k).
Proof.
  intros Hf. induction k as [|k IH]; intros Hk.
  - rewrite Nat.add_0_r. exact Hf.
  - rewrite run_S, Nat.add_succ_r.
    apply step_recovery; [lia | apply IH; lia].
Qed.

Lemma recovery_path_busy (m : nat) :
  (m < 13)%nat ->
  recovery_path m <> IDLE /\
  recovery_path m <> READ_WRITE /\ recovery_path m <> READ_ACK.
Proof.
  intros Hm.
  do 13 (destruct m as [|m]; [repeat split; discriminate|]). lia.
Qed.

(** X9: when the host drops [cyc] in READ-WRITE or in READ-ACK, the
    transaction is unwound: the clock enable is off two ticks later, no
    later tick acknowledges, and the controller is in IDLE 13 ticks
    (READ-WRITE) or 14 ticks (READ-ACK) after the tick with [cyc] low and
    in no tick before. *)
Theorem host_abort_returns_to_idle :
  forall (latency : Z) (ins : nat -> Inputs) (s : Regs),
    fsm s = READ_WRITE \/ fsm s = READ_ACK ->
    cyc (ins 0%nat) = false ->
    fsm (run latency ins (abort_ticks (fsm s)) s) = IDLE /\
    (forall k, (1 <= k < abort_ticks (fsm s))%nat ->
       fsm (run latency ins k s) <> IDLE /\
       ack (ins k) (run latency ins k s) = false) /\
    clk (run latency ins 2 s) = false.
Proof.
  intros latency ins s Hst Hcyc.
  assert (Hfirst : exists p, (p <= 1)%nat /\
            (p + abort_ticks (fsm s) = 14)%nat /\
            fsm (run latency ins 1 s) = recovery_path p /\
            (p = 1%nat -> clk (run latency ins 1 s) = false)).
  { destruct Hst as [Hf | Hf]; rewrite Hf; cbn [abort_ticks].
    - exists 1%nat. rewrite run_S. cbn [run]. unfold step.
      rewrite Hf, Hcyc. cbn [negb].
      repeat split; try lia;
        destruct (we (ins 0%nat)), (cti (ins 0%nat) =? 2); reflexivity.
    - exists 0%nat. rewrite run_S. cbn [run]. unfold step.
      rewrite Hf, Hcyc. cbn [negb orb].
      repeat split; try lia;
        destruct (Z.testbit (phy_rwds_i (ins 0%nat)) 3),
          (negb (cti (ins 0%nat) =? 2)); reflexivity. }
  destruct Hfirst as (p & Hp & Hsum & Hf1 & Hclk1).
  pose proof (recovery_from latency (fun k => ins (1 + k)%nat) _ p Hf1)
    as Hpath.
  assert (Hrun : forall k, (1 <= k)%nat -> (p + (k - 1) <= 13)%nat ->
            fsm (run latency ins k s) = recovery_path (p + (k - 1))).
  { intros k Hk Hle. replace k with (1 + (k - 1))%nat at 1 by lia.
    rewrite run_add. apply Hpath. exact Hle. }
  split; [|split].
  - rewrite Hrun by lia.
    replace (p + (abort_ticks (fsm s) - 1))%nat with 13%nat by lia.
    reflexivity.
  - intros k Hk. unfold ack. rewrite Hrun by lia.
    destruct (recovery_path_busy (p + (k - 1)) ltac:(lia)) as (Hi & Hw & Ha).
    split; [exact Hi|].
    destruct (recovery_path (p + (k - 1))); try reflexivity; congruence.
  - rewrite run_S.
    destruct (step_recovery latency (ins 1%nat) (run latency ins 1 s) p
                ltac:(lia) Hf1) as (_ & Hkeep & Hoff).
    assert (Hcase : p = 1%nat \/ p = 0%nat) by lia.
    destruct Hcase as [-> | ->].
    + rewrite Hkeep by lia. apply Hclk1. reflexivity.
    + apply Hoff. reflexivity.
Qed.

Lemma host_abort_returns_to_idle_witness :
  let s := run 6 (fun _ => read_request) 12 reset in
  let ins := fun _ : nat =>
    {| cyc := false; stb := false; we := false; adr := 0; dat_w := 0;
       sel := 0; cti := 0; phy_dq_i := 0; phy_rwds_i := 0 |} in
  fsm (run 6 ins (abort_ticks (fsm s)) s) = IDLE /\
  (forall k, (1 <= k < abort_ticks (fsm s))%nat ->
     fsm (run 6 ins k s) <> IDLE /\ ack (ins k) (run 6 ins k s) = false) /\
  clk (run 6 ins 2 s) = false.
Proof.
  intros s ins.
  apply (host_abort_returns_to_idle 6 ins s).
  - right. reflexivity.
  - reflexivity.
Defined.

End BurstTransactions.
